(** * NeilanX: the rule-based Swedish sentiment analyzer

    A shallow embedding of [Neilanx/sentiment_analyzer.py]
    (class [SwedishSentimentAnalyzer]) and the properties of its
    scoring engine, keyword extraction and batch operation.

    - Python [str] is a sequence of Unicode code points: [list N].
    - Python [float] is IEEE 754 binary64: [spec_float] with the
      operations of [SpecFloat] at precision 53 and [emax] 1024.
    - Python [int] is [Z]; a number that may be an [int] or a [float]
      (the accumulators start as the integer [0]) is a [num].
    - A [dict] whose iteration order matters is an association list in
      insertion order; a [set] used only for membership is a list. *)

From Stdlib Require Import String Ascii.
From Stdlib Require Import ZArith NArith List Bool Lia.
From Stdlib Require Import Sorted.
From Stdlib Require Import Floats.SpecFloat.
Import ListNotations.

(* ================================================================= *)
(** * Python numbers *)

Module PyNum.

Local Open Scope Z_scope.

Definition float := spec_float.

Definition prec : Z := 53.
Definition emax : Z := 1024.

Definition fadd : float -> float -> float := SFadd prec emax.
Definition fmul : float -> float -> float := SFmul prec emax.
Definition fdiv : float -> float -> float := SFdiv prec emax.
Definition feqb : float -> float -> bool := SFeqb.
Definition fltb : float -> float -> bool := SFltb.
Definition fleb : float -> float -> bool := SFleb.

(** An integer as a (possibly unnormalised) mantissa with exponent 0:
    the operand format of the division core, which rounds the exact
    quotient once. *)
Definition Z2SF (z : Z) : float :=
  match z with
  | Z0 => S754_zero false
  | Zpos p => S754_finite false p 0
  | Zneg p => S754_finite true p 0
  end.

(** [float(z)]: the binary64 value nearest to the integer [z]. *)
Definition float_of_int (z : Z) : float := binary_normalize prec emax z 0 false.

(** Decimal literals such as [0.6] denote the binary64 value nearest to
    the decimal: the correctly rounded quotient of the digits by the
    power of ten. *)
Definition of_decimal (d : Decimal.decimal) : option spec_float :=
  match d with
  | Decimal.Decimal i f =>
      Some (fdiv (Z2SF (Z.of_int (Decimal.app_int i f)))
                 (Z2SF (10 ^ Z.of_nat (Decimal.nb_digits f))))
  | Decimal.DecimalExp _ _ _ => None
  end.

Definition of_number (n : Number.number) : option spec_float :=
  match n with
  | Number.Decimal d => of_decimal d
  | Number.Hexadecimal _ => None
  end.

Definition to_number (f : spec_float) : option Number.number := None.

Declare Scope py_scope.
Delimit Scope py_scope with py.
Number Notation spec_float of_number to_number : py_scope.

(** A value that is an [int] or a [float]. *)
Inductive num : Type :=
| PyInt (z : Z)
| PyFloat (f : float).

Definition to_float (a : num) : float :=
  match a with
  | PyInt z => float_of_int z
  | PyFloat f => f
  end.

(** [a + b] *)
Definition py_add (a b : num) : num :=
  match a, b with
  | PyInt x, PyInt y => PyInt (x + y)
  | _, _ => PyFloat (fadd (to_float a) (to_float b))
  end.

(** [a == 0] *)
Definition py_eq_zero (a : num) : bool :=
  match a with
  | PyInt z => z =? 0
  | PyFloat f => feqb f 0.0%py
  end.

(** [a / b]: true division; [None] is [ZeroDivisionError].  Two
    integers give the correctly rounded quotient. *)
Definition py_truediv (a b : num) : option float :=
  match a, b with
  | PyInt x, PyInt y =>
      if y =? 0 then None else Some (fdiv (Z2SF x) (Z2SF y))
  | _, _ =>
      if feqb (to_float b) 0.0%py then None
      else Some (fdiv (to_float a) (to_float b))
  end.

(** [min(a, b)] on two floats: the first argument unless the second
    is smaller. *)
Definition py_min (a b : float) : float := if fltb b a then b else a.

(** A float that is greater than zero: positive infinity, or a positive
    finite number whose exponent is not below the smallest one,
    [3 - emax - prec]. *)
Definition is_positive (f : float) : bool :=
  match f with
  | S754_finite false _ e => -1074 <=? e
  | S754_infinity false => true
  | _ => false
  end.

End PyNum.

(* ================================================================= *)
(** * Python strings *)

Module PyStr.

Local Open Scope N_scope.

Definition codepoint := N.
Definition str := list codepoint.

Definition chr (a : ascii) : codepoint := N_of_ascii a.

(** Reading a source literal: the UTF-8 bytes of a Rocq string decoded
    into code points. *)
Fixpoint utf8_decode (pending : nat) (acc : N) (bs : list N) : str :=
  match bs with
  | [] => []
  | b :: bs' =>
      match pending with
      | S k =>
          let acc' := acc * 64 + b mod 64 in
          match k with
          | O => acc' :: utf8_decode 0 0 bs'
          | S _ => utf8_decode k acc' bs'
          end
      | O =>
          if b <? 128 then b :: utf8_decode 0 0 bs'
          else if b <? 224 then utf8_decode 1 (b mod 32) bs'
          else if b <? 240 then utf8_decode 2 (b mod 16) bs'
          else utf8_decode 3 (b mod 8) bs'
      end
  end.

Definition u (s : string) : str :=
  utf8_decode 0 0 (map N_of_ascii (list_ascii_of_string s)).

Fixpoint str_eqb (a b : str) : bool :=
  match a, b with
  | [], [] => true
  | x :: a', y :: b' => (x =? y) && str_eqb a' b'
  | _, _ => false
  end.

(** [w in s] for a set or the keys of a dict. *)
Definition mem (w : str) (s : list str) : bool := existsb (str_eqb w) s.

(** [d.get(k)] on a dict in insertion order. *)
Fixpoint dict_get {V : Type} (d : list (str * V)) (k : str) : option V :=
  match d with
  | [] => None
  | (k', v) :: d' => if str_eqb k k' then Some v else dict_get d' k
  end.

(** [d[k] = v]: an existing key keeps its place. *)
Fixpoint dict_set {V : Type} (d : list (str * V)) (k : str) (v : V)
  : list (str * V) :=
  match d with
  | [] => [(k, v)]
  | (k', v') :: d' =>
      if str_eqb k k' then (k', v) :: d' else (k', v') :: dict_set d' k v
  end.

(** [str.isspace] of one character, which is also [\s] of [re] on a
    [str] pattern and the separator set of [str.split()] and
    [str.strip()]. *)
Definition isspace (c : codepoint) : bool :=
  ((9 <=? c) && (c <=? 13)) || ((28 <=? c) && (c <=? 32))
  || (c =? 133) || (c =? 160) || (c =? 5760)
  || ((8192 <=? c) && (c <=? 8202))
  || (c =? 8232) || (c =? 8233) || (c =? 8239) || (c =? 8287)
  || (c =? 12288).

(** The part of the Unicode character database that is too large to
    list: [str.lower] and [str.isalnum]. *)
Class UnicodeData : Type := {
  lower : str -> str;
  isalnum : codepoint -> bool;
  lower_nil : lower [] = []
}.

(** [\w] of [re]. *)
Definition isword `{UnicodeData} (c : codepoint) : bool :=
  isalnum c || (c =? chr "_").

Fixpoint take_while (p : codepoint -> bool) (s : str) : str :=
  match s with
  | [] => []
  | c :: s' => if p c then c :: take_while p s' else []
  end.

Fixpoint drop_while (p : codepoint -> bool) (s : str) : str :=
  match s with
  | [] => []
  | c :: s' => if p c then drop_while p s' else s
  end.

(** [s.strip()] *)
Definition strip (s : str) : str :=
  rev (drop_while isspace (rev (drop_while isspace s))).

(** [s.split()]: the maximal runs of non-space characters; [cur] holds
    the current run, reversed. *)
Fixpoint split_from (cur : str) (s : str) : list str :=
  match s with
  | [] => match cur with [] => [] | _ :: _ => [rev cur] end
  | c :: s' =>
      if isspace c then
        match cur with
        | [] => split_from [] s'
        | _ :: _ => rev cur :: split_from [] s'
        end
      else split_from (c :: cur) s'
  end.

Definition split (s : str) : list str := split_from [] s.

(** [re.sub(pattern, repl, s)] for a pattern that never matches the
    empty string: [m t] is the length of the match of the pattern at
    the start of [t], if there is one.  Matches are taken left to right
    and do not overlap; [skip] counts the characters of the current
    match still to pass over. *)
Fixpoint re_sub_from (m : str -> option nat) (repl : str) (skip : nat)
  (s : str) : str :=
  match s with
  | [] => []
  | c :: s' =>
      match skip with
      | S k => re_sub_from m repl k s'
      | O =>
          match m s with
          | Some (S k) => repl ++ re_sub_from m repl k s'
          | _ => c :: re_sub_from m repl 0 s'
          end
      end
  end.

Definition re_sub (m : str -> option nat) (repl : str) (s : str) : str :=
  re_sub_from m repl 0 s.

Fixpoint strip_prefix (p s : str) : option str :=
  match p, s with
  | [], _ => Some s
  | _ :: _, [] => None
  | x :: p', y :: s' => if x =? y then strip_prefix p' s' else None
  end.

(** [\s+] *)
Definition match_spaces (s : str) : option nat :=
  match length (take_while isspace s) with
  | O => None
  | S k => Some (S k)
  end.

Definition in_range (lo hi : ascii) (c : codepoint) : bool :=
  (chr lo <=? c) && (c <=? chr hi).

(** One character of
    [(?:[a-zA-Z]|[0-9]|[$-_@.&+]|[!*\\(\\),]|(?:%[0-9a-fA-F][0-9a-fA-F]))]:
    the last alternative starts with [%], which the third one already
    takes, so an iteration of the group always consumes one character
    of the first four classes. *)
Definition url_char (c : codepoint) : bool :=
  (in_range "a" "z" c || in_range "A" "Z" c)
  || in_range "0" "9" c
  || (in_range "$" "_" c || (c =? chr "@") || (c =? chr ".")
      || (c =? chr "&") || (c =? chr "+"))
  || ((c =? chr "!") || (c =? chr "*") || (c =? 92) || (c =? chr "(")
      || (c =? chr ")") || (c =? chr ",")).

(** [://] and at least one URL character, after [n] matched characters. *)
Definition url_tail (n : nat) (r : str) : option nat :=
  match strip_prefix (u "://") r with
  | Some t =>
      match length (take_while url_char t) with
      | O => None
      | S k => Some (n + 3 + S k)%nat
      end
  | None => None
  end.

(** [http[s]?://(?:...)+]: the optional [s] is tried first. *)
Definition match_url (s : str) : option nat :=
  match strip_prefix (u "http") s with
  | Some r =>
      match r with
      | c :: r' =>
          if c =? chr "s" then
            match url_tail 5 r' with
            | Some n => Some n
            | None => url_tail 4 r
            end
          else url_tail 4 r
      | [] => url_tail 4 r
      end
  | None => None
  end.

(** [\S+@\S+]: both [\S+] are greedy, so a match runs to the end of the
    run of non-space characters it starts in, and exists when that run
    has an [@] that is neither its first nor its last character. *)
Definition match_email (s : str) : option nat :=
  match take_while (fun c => negb (isspace c)) s with
  | [] => None
  | c :: t =>
      if existsb (fun x => x =? chr "@") (removelast t)
      then Some (S (length t))
      else None
  end.

(** [[^\w\s]] *)
Definition match_nonword `{UnicodeData} (s : str) : option nat :=
  match s with
  | [] => None
  | c :: _ => if negb (isword c) && negb (isspace c) then Some 1%nat else None
  end.

End PyStr.

(* ================================================================= *)
(** * The word lists of [_initialize_model] *)

Module Lexicon.

Import PyNum PyStr.

Definition positive_words : list str := map u [
  (* Swedish positive words *)
  "bra"; "fantastisk"; "utmärkt"; "perfekt"; "underbar"; "toppenklass";
  "rekommenderar"; "nöjd"; "glad"; "lysande"; "grym"; "suverän";
  "strålande"; "magnifik"; "outstanding"; "förtjusande"; "härlig";
  "fenomenal"; "otrolig"; "enastående"; "felfri"; "imponerande";
  "tillfredsställande"; "prisvärd"; "effektiv"; "snabb"; "hjälpsam";
  "vänlig"; "professionell"; "kvalitet"; "värd"; "rekommenderar starkt";
  "älskar"; "fantastisk service"; "bästa"; "toppen"; "superbra";
  "kämpa"; "tacksam"; "imponerad"; "överträffade förväntningar";
  (* English positive words *)
  "excellent"; "amazing"; "great"; "good"; "perfect"; "wonderful";
  "love"; "awesome"; "best"; "brilliant"; "outstanding"; "fantastic";
  "superb"; "marvelous"; "exceptional"; "impressive"; "satisfying";
  "pleased"; "delighted"; "thrilled"; "happy"; "satisfied";
  "recommend"; "worth"; "value"; "quality"; "fast"; "friendly";
  "helpful"; "professional"; "efficient"; "exceeded expectations"
]%string.

Definition negative_words : list str := map u [
  (* Swedish negative words *)
  "dålig"; "hemsk"; "fruktansvärd"; "besviken"; "sämst"; "trasig";
  "problem"; "fel"; "kass"; "usel"; "ruskig"; "otillfredsställande";
  "besvikelse"; "irriterande"; "förfärlig"; "katastrofal"; "värdelös";
  "opålitlig"; "långsam"; "dyr"; "överpris"; "svårt"; "komplicerat";
  "otrevlig"; "oprofessionell"; "slarvig"; "bristfällig"; "misslyckad";
  "ånger"; "slöseri"; "inte värt"; "rekommenderar inte"; "undvik";
  "bedrägeri"; "bluff"; "skandal"; "försenad"; "förlorad"; "skadad";
  (* English negative words *)
  "bad"; "terrible"; "awful"; "worst"; "horrible"; "hate";
  "disappointed"; "broken"; "failed"; "poor"; "wrong"; "disgusting";
  "useless"; "waste"; "scam"; "fraud"; "delayed"; "damaged";
  "unreliable"; "slow"; "expensive"; "overpriced"; "complicated";
  "unprofessional"; "rude"; "regret"; "avoid"; "not recommend"
]%string.

(** Negation words that can flip sentiment *)
Definition negation_words : list str := map u [
  "inte"; "icke"; "ej"; "aldrig"; "ingenting"; "inget"; "ingen";
  "not"; "no"; "never"; "nothing"; "none"; "neither"; "nor"
]%string.

(** Intensifiers that increase sentiment strength *)
Definition intensifiers : list (str * float) := [
  (u "mycket", 1.5); (u "väldigt", 1.5); (u "extremt", 2.0);
  (u "otroligt", 2.0); (u "helt", 1.3); (u "verkligen", 1.4);
  (u "absolut", 1.8); (u "definitivt", 1.4);
  (u "very", 1.5); (u "extremely", 2.0); (u "absolutely", 1.8);
  (u "really", 1.4); (u "incredibly", 2.0); (u "totally", 1.6);
  (u "completely", 1.7); (u "quite", 1.2)
]%py.

(** The stop words of [extract_keywords] *)
Definition stop_words : list str := map u [
  "och"; "i"; "att"; "det"; "som"; "på"; "de"; "av"; "för"; "till";
  "är"; "en"; "den"; "har"; "inte"; "var"; "om"; "med"; "kan"; "man";
  "så"; "från"; "ut"; "när"; "bara"; "sina"; "där"; "nu"; "över";
  "skulle"; "då"; "hade"; "upp"; "mot"; "också"; "än"; "mycket"; "bra";
  "dålig"; "dåligt"; "bättre"; "sämre"; "helt"; "väldigt"; "riktigt"
]%string.

End Lexicon.

(* ================================================================= *)
(** * [SwedishSentimentAnalyzer] *)

Module Analyzer.

Import PyNum PyStr Lexicon.

Inductive label : Type := positive | negative | neutral.

(** The dict returned by [analyze_sentiment]; [keywords] is the key
    that [batch_analyze] adds.  [scores] is a dict literal: empty, or
    the three raw totals. *)
Record result : Type := mkResult {
  sentiment : label;
  score : float;
  confidence : float;
  scores : list (string * num);
  keywords : option (list str)
}.

Definition label_eqb (a b : label) : bool :=
  match a, b with
  | positive, positive | negative, negative | neutral, neutral => true
  | _, _ => false
  end.

(** The state of the scan: [positive_score], [negative_score],
    [word_count]. *)
Record totals : Type := mkTotals {
  positive_score : num;
  negative_score : num;
  word_count : Z
}.

Section WithUnicode.

Context {ucd : UnicodeData}.

(** [preprocess_text] *)
Definition preprocess_text (text : str) : str :=
  match text with
  | [] => []
  | _ :: _ =>
      (* Remove extra whitespace *)
      let text := re_sub match_spaces (u " ") (strip text) in
      (* Remove URLs *)
      let text := re_sub match_url [] text in
      (* Remove email addresses *)
      let text := re_sub match_email [] text in
      text
  end.

(** [words[i]], used only under a guard that keeps [i] in range. *)
Definition word_at (words : list str) (i : nat) : str := nth i words [].

(** Check for negation before this word *)
Definition negated_at (words : list str) (i : nat) : bool :=
  if (0 <? i)%nat && mem (word_at words (i - 1)) negation_words then true
  else if (1 <? i)%nat && mem (word_at words (i - 2)) negation_words then true
  else false.

(** Check for intensifiers before this word; the membership test
    [w in self.intensifiers] and the lookup [self.intensifiers[w]] are
    one [dict_get]. *)
Definition intensity_at (words : list str) (i : nat) : float :=
  match (if (0 <? i)%nat then dict_get intensifiers (word_at words (i - 1))
         else None) with
  | Some k => k
  | None =>
      match (if (1 <? i)%nat then dict_get intensifiers (word_at words (i - 2))
             else None) with
      | Some k => k
      | None => 1.0%py
      end
  end.

(** The body of the loop [for i, word in enumerate(words)]. *)
Definition step (words : list str) (st : totals) (iw : nat * str) : totals :=
  let '(i, word) := iw in
  let negated := negated_at words i in
  let intensity := intensity_at words i in
  if mem word positive_words then
    let score := fmul 1.0%py intensity in
    if negated then
      mkTotals (positive_score st)
               (py_add (negative_score st) (PyFloat score))
               (word_count st + 1)
    else
      mkTotals (py_add (positive_score st) (PyFloat score))
               (negative_score st)
               (word_count st + 1)
  else if mem word negative_words then
    let score := fmul 1.0%py intensity in
    if negated then
      mkTotals (py_add (positive_score st) (PyFloat score))
               (negative_score st)
               (word_count st + 1)
    else
      mkTotals (positive_score st)
               (py_add (negative_score st) (PyFloat score))
               (word_count st + 1)
  else st.

Definition enumerate (words : list str) : list (nat * str) :=
  combine (seq 0 (length words)) words.

Definition scan (words : list str) : totals :=
  fold_left (step words) (enumerate words) (mkTotals (PyInt 0) (PyInt 0) 0).

(** Determine sentiment category *)
Definition classify (sentiment_score : float) : label :=
  if fltb 0.6%py sentiment_score then positive
  else if fltb sentiment_score 0.4%py then negative
  else neutral.

(** The result of the early returns and of the [except] handler. *)
Definition fallback (conf : float) : result :=
  mkResult neutral 0.5%py conf [] None.

(** The body of the [try] block; [None] is a raised exception. *)
Definition analyze_body (text : str) : option result :=
  let clean_text := lower (preprocess_text text) in
  if (length clean_text <? 3)%nat then Some (fallback 0.1%py)
  else
    let words := split clean_text in
    let st := scan words in
    if (word_count st =? 0)%Z then
      Some (mkResult neutral 0.5%py 0.2%py
              [("positive", PyInt 0); ("negative", PyInt 0);
               ("word_count", PyInt 0)]%string None)
    else
      let total_score := py_add (positive_score st) (negative_score st) in
      let normalized :=
        if py_eq_zero total_score then Some (0.5%py, 0.1%py)
        else
          match py_truediv (positive_score st) total_score with
          | None => None
          | Some sentiment_score =>
              match py_truediv (PyInt (word_count st))
                               (PyInt (Z.of_nat (length words))) with
              | None => None
              | Some q => Some (sentiment_score, py_min q 1.0%py)
              end
          end in
      match normalized with
      | None => None
      | Some (sentiment_score, conf) =>
          Some (mkResult (classify sentiment_score) sentiment_score conf
                  [("positive", positive_score st);
                   ("negative", negative_score st);
                   ("word_count", PyInt (word_count st))]%string None)
      end.

(** [analyze_sentiment]; the argument is [None] for Python's [None]. *)
Definition analyze_sentiment (text : option str) : result :=
  match text with
  | None | Some [] => fallback 0.0%py
  | Some (c :: s) =>
      match analyze_body (c :: s) with
      | Some r => r
      | None => fallback 0.0%py
      end
  end.

(** [lst[:stop]] *)
Definition slice_to {A : Type} (l : list A) (stop : Z) : list A :=
  if (stop <? 0)%Z then firstn (Z.to_nat (Z.of_nat (length l) + stop)) l
  else firstn (Z.to_nat stop) l.

(** [word_freq[word] = word_freq.get(word, 0) + 1] *)
Definition count_word (word_freq : list (str * Z)) (word : str)
  : list (str * Z) :=
  dict_set word_freq word
    (match dict_get word_freq word with Some n => n | None => 0 end + 1)%Z.

(** One insertion of the stable descending sort: [x], which stood
    before every element of [l], goes before the first element whose
    frequency is not larger than its own. *)
Fixpoint insert_by_freq (x : str * Z) (l : list (str * Z))
  : list (str * Z) :=
  match l with
  | [] => [x]
  | y :: l' =>
      if (snd x <? snd y)%Z then y :: insert_by_freq x l' else x :: y :: l'
  end.

(** [sorted(items, key=lambda x: x[1], reverse=True)]: [sorted] is
    stable, also with [reverse=True], which fixes the result; it is
    computed here by insertion from the right. *)
Fixpoint sorted_by_freq (items : list (str * Z)) : list (str * Z) :=
  match items with
  | [] => []
  | x :: items' => insert_by_freq x (sorted_by_freq items')
  end.

(** The tokens that [extract_keywords] works on. *)
Definition keyword_tokens (text : str) : list str :=
  split (re_sub match_nonword (u " ") (lower text)).

(** Filter out stop words and short words *)
Definition is_keyword (word : str) : bool :=
  (3 <? length word)%nat && negb (mem word stop_words).

(** [extract_keywords] *)
Definition extract_keywords (text : option str) (max_keywords : Z)
  : list str :=
  match text with
  | None | Some [] => []
  | Some (c :: s) =>
      (* Clean and tokenize *)
      let words := keyword_tokens (c :: s) in
      let keywords := filter is_keyword words in
      (* Count frequency and return most common *)
      let word_freq := fold_left count_word keywords [] in
      let sorted_keywords := sorted_by_freq word_freq in
      map fst (slice_to sorted_keywords max_keywords)
  end.

(** The default of [max_keywords]. *)
Definition default_max_keywords : Z := 10.

(** [result['keywords'] = ...] *)
Definition set_keywords (r : result) (kw : list str) : result :=
  mkResult (sentiment r) (score r) (confidence r) (scores r) (Some kw).

(** [batch_analyze]: the loop appends one result per text. *)
Definition batch_analyze (texts : list (option str)) : list result :=
  fold_left
    (fun results text =>
       let result := analyze_sentiment text in
       let result :=
         set_keywords result (extract_keywords text default_max_keywords) in
       results ++ [result])
    texts [].

End WithUnicode.

(** ** Predicates used to state the properties of the scan *)

Local Open Scope Z_scope.

(** A token that the scan counts. *)
Definition is_sentiment_word (w : str) : bool :=
  mem w positive_words || mem w negative_words.

(** An accumulator is the integer [0] it started as, or a float
    greater than zero. *)
Definition acc_ok (a : num) : bool :=
  match a with
  | PyInt z => z =? 0
  | PyFloat f => is_positive f
  end.

Definition is_positive_num (a : num) : bool :=
  match a with
  | PyInt _ => false
  | PyFloat f => is_positive f
  end.

Record scan_inv (st : totals) : Prop := {
  inv_positive : acc_ok (positive_score st) = true;
  inv_negative : acc_ok (negative_score st) = true;
  inv_count : 0 <= word_count st;
  inv_matched : 0 < word_count st ->
    is_positive_num (positive_score st)
    || is_positive_num (negative_score st) = true
}.

Local Close Scope Z_scope.

(** ** Predicates used to state the properties of the keywords *)

(** The number of occurrences of [w] in [l]. *)
Definition count_of (w : str) (l : list str) : nat :=
  length (filter (str_eqb w) l).

(** [l.index(w)]: the position of the first occurrence of [w] in [l]
    (the length of [l] when there is none). *)
Fixpoint index_of (w : str) (l : list str) : nat :=
  match l with
  | [] => 0
  | x :: l' => if str_eqb w x then 0 else S (index_of w l')
  end.

(** [a] goes before [b] among the keywords of the tokens [words]: it
    is more frequent, or as frequent and first seen earlier. *)
Definition keyword_before (words : list str) (a b : str) : Prop :=
  (count_of b words < count_of a words)%nat
  \/ (count_of a words = count_of b words
      /\ (index_of a words < index_of b words)%nat).

(** The order that the sort establishes on dict items when every item
    carries its [key] and the input is in increasing [ord]. *)
Definition item_before (key : str -> Z) (ord : str -> nat)
  (x y : str * Z) : Prop :=
  (key (fst y) < key (fst x))%Z
  \/ (key (fst x) = key (fst y) /\ (ord (fst x) < ord (fst y))%nat).

(** What [word_freq] holds after the words [p]: its keys in the order
    of their first occurrence, each with its number of occurrences. *)
Definition freq_inv (p : list str) (d : list (str * Z)) : Prop :=
  StronglySorted (fun a b => (index_of a p < index_of b p)%nat) (map fst d)
  /\ Forall (fun x => In (fst x) p /\ snd x = Z.of_nat (count_of (fst x) p)) d
  /\ (forall k, In k p -> In k (map fst d)).

(** The character database on U+0000..U+00FF (Basic Latin and Latin-1
    Supplement), which covers every text evaluated below; code points
    beyond are left as they are by [lower] and are no word characters. *)
Definition latin1_lower_char (c : codepoint) : codepoint :=
  if (in_range "A" "Z" c || ((192 <=? c) && (c <=? 222) && negb (c =? 215)))%N
  then (c + 32)%N else c.

Definition latin1_isalnum (c : codepoint) : bool :=
  (in_range "0" "9" c || in_range "A" "Z" c || in_range "a" "z" c
   || (c =? 170) || (c =? 178) || (c =? 179) || (c =? 181) || (c =? 185)
   || (c =? 186) || ((188 <=? c) && (c <=? 190))
   || ((192 <=? c) && (c <=? 214)) || ((216 <=? c) && (c <=? 246))
   || ((248 <=? c) && (c <=? 255)))%N.

#[export] Instance latin1 : UnicodeData := {
  lower := map latin1_lower_char;
  isalnum := latin1_isalnum;
  lower_nil := eq_refl
}.

End Analyzer.

(* ================================================================= *)
(** * [utils.py]: file names and the parsers of pasted and OCR text *)

Module Utils.

Import PyNum PyStr.

Definition ALLOWED_EXTENSIONS : list str := map u [
  "csv"; "txt"; "png"; "jpg"; "jpeg"; "gif"; "bmp"; "tiff"
]%string.

(** The set literal of [is_image_file]. *)
Definition IMAGE_EXTENSIONS : list str := map u [
  "png"; "jpg"; "jpeg"; "gif"; "bmp"; "tiff"
]%string.

(** [c in s] for one character. *)
Definition has_char (c : codepoint) (s : str) : bool :=
  existsb (fun x => (x =? c)%N) s.

(** [s.rsplit(sep, 1)] for a one-character separator: the text before
    and after the last [sep], or [s] alone when it has none. *)
Definition rsplit1 (sep : codepoint) (s : str) : list str :=
  match drop_while (fun x => negb (x =? sep)%N) (rev s) with
  | [] => [s]
  | _ :: before =>
      [rev before; rev (take_while (fun x => negb (x =? sep)%N) (rev s))]
  end.

(** [s.startswith(p)] and [s.startswith((p1, p2, ...))]. *)
Definition startswith (s p : str) : bool :=
  match strip_prefix p s with
  | Some _ => true
  | None => false
  end.

Definition startswith_any (s : str) (ps : list str) : bool :=
  existsb (startswith s) ps.

(** [s.split(sep)] for a non-empty separator: the separators are found
    left to right and do not overlap; [cur] holds the current piece,
    reversed, and [skip] the characters of the separator still to pass
    over. *)
Fixpoint split_on_from (sep : str) (skip : nat) (cur : str) (s : str)
  : list str :=
  match s with
  | [] => [rev cur]
  | c :: s' =>
      match skip with
      | S k => split_on_from sep k cur s'
      | O =>
          match strip_prefix sep s with
          | Some _ => rev cur :: split_on_from sep (length sep - 1) [] s'
          | None => split_on_from sep 0 (c :: cur) s'
          end
      end
  end.

Definition split_on (sep : str) (s : str) : list str :=
  split_on_from sep 0 [] s.

Definition is_empty (s : str) : bool :=
  match s with
  | [] => true
  | _ :: _ => false
  end.

Section WithUnicodeAndClock.

Context {ucd : UnicodeData}.

(** [datetime.now()]: [now k] is what the clock shows at the reading
    number [k] of a call. *)
Variable datetime : Type.
Variable now : nat -> datetime.

(** [allowed_file]; the index [[1]] is in range under the first
    conjunct. *)
Definition allowed_file (filename : str) : bool :=
  has_char (chr ".") filename
  && mem (lower (nth 1 (rsplit1 (chr ".") filename) [])) ALLOWED_EXTENSIONS.

(** [is_image_file] *)
Definition is_image_file (filename : option str) : bool :=
  match filename with
  | None | Some [] => false
  | Some (c :: s) =>
      has_char (chr ".") (c :: s)
      && mem (lower (nth 1 (rsplit1 (chr ".") (c :: s)) [])) IMAGE_EXTENSIONS
  end.

(** The dict that the parsers build for one review. *)
Record review_data : Type := mkReview {
  review_text : str;
  rating : option Z;
  platform : str;
  reviewer_name : option str;
  review_date : option datetime
}.

Definition header_prefixes : list str :=
  map u ["review"; "text"; "comment"; "feedback"]%string.

(** The loop of [parse_text_reviews] over the lines. *)
Fixpoint parse_lines (lines : list str) (reviews : list review_data)
  : list review_data :=
  match lines with
  | [] => reviews
  | line :: rest =>
      let line := strip line in
      (* Skip empty lines *)
      if is_empty line then parse_lines rest reviews
      (* Skip very short lines (likely not reviews) *)
      else if (length line <? 3)%nat then parse_lines rest reviews
      (* Skip lines that look like headers or separators *)
      else if startswith_any (lower line) header_prefixes
      then parse_lines rest reviews
      (* Limit to 100 reviews for free tier: break *)
      else if (100 <=? length reviews)%nat then reviews
      else
        (* Basic validation *)
        let line :=
          if (5000 <? length line)%nat then firstn 5000 line else line in
        parse_lines rest
          (reviews ++ [mkReview line None (u "text_input") None
                         (Some (now (length reviews)))])
  end.

(** [parse_text_reviews] *)
Definition parse_text_reviews (text_input : option str) : list review_data :=
  match text_input with
  | None => []
  | Some t =>
      if is_empty t || is_empty (strip t) then []
      else parse_lines (split_on [10%N] (strip t)) []
  end.

(** What every review of [parse_text_reviews] satisfies. *)
Definition text_review_ok (r : review_data) : Prop :=
  (3 <= length (review_text r) <= 5000)%nat
  /\ isspace (hd 32%N (review_text r)) = false
  /\ rating r = None
  /\ platform r = u "text_input"
  /\ reviewer_name r = None.

(** What every review of [parse_image_reviews] satisfies. *)
Definition ocr_review_ok (r : review_data) : Prop :=
  review_text r <> []
  /\ rating r = None
  /\ platform r = u "image_ocr"
  /\ reviewer_name r = None.

(** The review dict of [parse_image_reviews]. *)
Definition ocr_review (text : str) (reviews : list review_data)
  : review_data :=
  mkReview text None (u "image_ocr") None (Some (now (length reviews))).

(** [if current_review.strip(): reviews.append(...)] *)
Definition flush_review (current_review : str) (reviews : list review_data)
  : list review_data :=
  if is_empty (strip current_review) then reviews
  else reviews ++ [ocr_review (strip current_review) reviews].

(** The loop over the sentences of a long paragraph. *)
Fixpoint group_sentences (sentences : list str) (current_review : str)
  (reviews : list review_data) : str * list review_data :=
  match sentences with
  | [] => (current_review, reviews)
  | sentence :: rest =>
      if (500 <? length (current_review ++ sentence))%nat then
        group_sentences rest sentence (flush_review current_review reviews)
      else
        group_sentences rest (current_review ++ sentence ++ u ". ") reviews
  end.

(** The loop over the paragraphs. *)
Fixpoint parse_paragraphs (paragraphs : list str)
  (reviews : list review_data) : list review_data :=
  match paragraphs with
  | [] => reviews
  | para :: rest =>
      let para := strip para in
      (* Skip very short texts *)
      if (length para <? 10)%nat then parse_paragraphs rest reviews
      else if (1000 <? length para)%nat then
        let '(current_review, reviews) :=
          group_sentences (split_on (u ". ") para) [] reviews in
        parse_paragraphs rest (flush_review current_review reviews)
      else parse_paragraphs rest (reviews ++ [ocr_review para reviews])
  end.

(** [parse_image_reviews] from the text that [extract_text_from_image]
    returned; [None] is the [ValueError] of the first test. *)
Definition parse_image_reviews (extracted_text : str)
  : option (list review_data) :=
  if is_empty extracted_text || (length (strip extracted_text) <? 5)%nat
  then None
  else
    let reviews := parse_paragraphs (split_on [10%N; 10%N] extracted_text) [] in
    (* If no good paragraphs found, treat entire text as one review *)
    let reviews :=
      if (length reviews =? 0)%nat
      then reviews ++ [ocr_review (strip extracted_text) reviews]
      else reviews in
    (* Limit to prevent abuse *)
    let reviews :=
      if (50 <? length reviews)%nat then firstn 50 reviews else reviews in
    Some reviews.

End WithUnicodeAndClock.

Arguments mkReview {datetime}.
Arguments review_text {datetime}.
Arguments rating {datetime}.
Arguments platform {datetime}.
Arguments reviewer_name {datetime}.
Arguments review_date {datetime}.
Arguments text_review_ok {datetime}.
Arguments ocr_review_ok {datetime}.
Arguments parse_text_reviews {ucd datetime}.
Arguments parse_lines {ucd datetime}.
Arguments parse_image_reviews {datetime}.
Arguments parse_paragraphs {datetime}.
Arguments group_sentences {datetime}.
Arguments flush_review {datetime}.
Arguments ocr_review {datetime}.

End Utils.

(* ================================================================= *)
(** * Facts about binary64 addition *)

Module FloatFacts.

Import PyNum.
Local Open Scope Z_scope.

Lemma digits2_pos_lower (m : positive) :
  2 ^ (Zpos (digits2_pos m) - 1) <= Zpos m.
Proof.
  induction m as [m IH | m IH |]; cbn [digits2_pos].
  - rewrite Pos2Z.inj_succ.
    replace (Z.succ (Zpos (digits2_pos m)) - 1)
      with (Z.succ (Zpos (digits2_pos m) - 1)) by lia.
    rewrite Z.pow_succ_r by lia. lia.
  - rewrite Pos2Z.inj_succ.
    replace (Z.succ (Zpos (digits2_pos m)) - 1)
      with (Z.succ (Zpos (digits2_pos m) - 1)) by lia.
    rewrite Z.pow_succ_r by lia. lia.
  - cbn. lia.
Qed.

Lemma shr_1_m (r : shr_record) :
  0 <= shr_m r -> shr_m (shr_1 r) = shr_m r / 2.
Proof.
  destruct r as [m r s]; cbn [shr_m]. intros Hm.
  destruct m as [| p | p]; [reflexivity | | lia].
  destruct p as [p | p |]; cbn [shr_1 shr_m].
  - rewrite Pos2Z.inj_xI.
    apply Z.div_unique with (r := 1); lia.
  - rewrite Pos2Z.inj_xO.
    apply Z.div_unique with (r := 0); lia.
  - reflexivity.
Qed.

Lemma iter_pos_shr_1_m (p : positive) : forall r : shr_record,
  0 <= shr_m r ->
  shr_m (iter_pos shr_1 p r) = shr_m r / 2 ^ Zpos p.
Proof.
  induction p as [p IH | p IH |]; intros r Hr; cbn [iter_pos].
  - assert (H1 : 0 <= shr_m (shr_1 r))
      by (rewrite shr_1_m by exact Hr; apply Z.div_pos; lia).
    assert (H2 : 0 <= shr_m (iter_pos shr_1 p (shr_1 r)))
      by (rewrite IH by exact H1; apply Z.div_pos; lia).
    rewrite IH by exact H2. rewrite IH by exact H1.
    rewrite shr_1_m by exact Hr.
    rewrite !Z.div_div by lia. f_equal.
    replace (Zpos p~1) with (1 + Zpos p + Zpos p) by lia.
    rewrite !Z.pow_add_r by lia. lia.
  - assert (H1 : 0 <= shr_m (iter_pos shr_1 p r))
      by (rewrite IH by exact Hr; apply Z.div_pos; lia).
    rewrite IH by exact H1. rewrite IH by exact Hr.
    rewrite Z.div_div by lia. f_equal.
    replace (Zpos p~0) with (Zpos p + Zpos p) by lia.
    rewrite Z.pow_add_r by lia. reflexivity.
  - rewrite shr_1_m by exact Hr. reflexivity.
Qed.

Lemma shr_m_of_loc (m : Z) (l : location) : shr_m (shr_record_of_loc m l) = m.
Proof. destruct l as [| []]; reflexivity. Qed.

(** Shifting a positive mantissa to its canonical exponent leaves it
    positive, and the exponent stays in range. *)
Lemma shr_fexp_positive (m : positive) (e : Z) (l : location) :
  -1074 <= e ->
  0 < shr_m (fst (shr_fexp prec emax (Zpos m) e l))
  /\ -1074 <= snd (shr_fexp prec emax (Zpos m) e l).
Proof.
  intros He. unfold shr_fexp, shr, fexp, SpecFloat.emin, prec, emax.
  cbn [Zdigits2].
  pose proof (digits2_pos_lower m) as Hd.
  set (d := Zpos (digits2_pos m)) in *.
  destruct (Z.max (d + e - 53) (3 - 1024 - 53) - e) as [| n | n] eqn:En;
    cbn [fst snd]; rewrite ?shr_m_of_loc; try (split; lia).
  assert (Hn : Zpos n = d - 53) by lia.
  split; [| lia].
  rewrite iter_pos_shr_1_m by (rewrite shr_m_of_loc; lia).
  rewrite shr_m_of_loc.
  apply Z.div_str_pos. split; [apply Z.pow_pos_nonneg; lia |].
  eapply Z.le_trans; [| exact Hd].
  apply Z.pow_le_mono_r; lia.
Qed.

Lemma round_nearest_even_positive (m : Z) (l : location) :
  0 < m -> 0 < round_nearest_even m l.
Proof.
  intros Hm. destruct l as [| []]; cbn [round_nearest_even]; try lia.
  destruct (Z.even m); lia.
Qed.

Lemma binary_round_aux_positive (m : positive) (e : Z) (l : location) :
  -1074 <= e ->
  is_positive (binary_round_aux prec emax false (Zpos m) e l) = true.
Proof.
  intros He. unfold binary_round_aux.
  destruct (shr_fexp_positive m e l He) as [Hm1 He1].
  destruct (shr_fexp prec emax (Zpos m) e l) as [mrs1 e1]; cbn [fst snd] in *.
  pose proof (round_nearest_even_positive _ (loc_of_shr_record mrs1) Hm1) as Hr.
  destruct (round_nearest_even (shr_m mrs1) (loc_of_shr_record mrs1))
    as [| m2 | m2]; try lia.
  destruct (shr_fexp_positive m2 e1 loc_Exact He1) as [Hm2 He2].
  destruct (shr_fexp prec emax (Zpos m2) e1 loc_Exact) as [mrs2 e2];
    cbn [fst snd] in *.
  destruct (shr_m mrs2) as [| m3 | m3]; try lia.
  destruct (e2 <=? emax - prec); cbn [is_positive]; [| reflexivity].
  apply Z.leb_le. exact He2.
Qed.

Lemma binary_round_positive (m : positive) (e : Z) :
  -1074 <= e ->
  is_positive (binary_round prec emax false m e) = true.
Proof.
  intros He. unfold binary_round, shl_align.
  destruct (fexp prec emax (Zpos (digits2_pos m) + e) - e) as [| n | n] eqn:En;
    try (apply binary_round_aux_positive; exact He).
  apply binary_round_aux_positive.
  unfold fexp, SpecFloat.emin, prec, emax in *. lia.
Qed.

(** The sum of two floats greater than zero is greater than zero. *)
Lemma fadd_positive (x y : float) :
  is_positive x = true -> is_positive y = true ->
  is_positive (fadd x y) = true.
Proof.
  destruct x as [sx | sx | | sx mx ex]; try discriminate;
    destruct y as [sy | sy | | sy my ey]; try discriminate;
    destruct sx; try discriminate; destruct sy; try discriminate;
    cbn [is_positive]; intros Hx Hy; try reflexivity.
  apply Z.leb_le in Hx, Hy.
  unfold fadd, SFadd. cbn [cond_Zopp]. cbn [Z.add binary_normalize].
  apply binary_round_positive. lia.
Qed.

Lemma positive_not_zero (f : float) :
  is_positive f = true -> feqb f 0.0%py = false.
Proof.
  destruct f as [s | s | | s m e]; try discriminate;
    destruct s; try discriminate; reflexivity.
Qed.

Lemma positive_gt_zero (f : float) :
  is_positive f = true -> fltb 0.0%py f = true.
Proof.
  destruct f as [s | s | | s m e]; try discriminate;
    destruct s; try discriminate; reflexivity.
Qed.

End FloatFacts.

(* ================================================================= *)
(** * Facts about the scan *)

Module ScanFacts.

Import PyNum PyStr Lexicon Analyzer FloatFacts.
Local Open Scope Z_scope.

Lemma dict_get_In {V : Type} (d : list (str * V)) (k : str) (v : V) :
  dict_get d k = Some v -> In v (map snd d).
Proof.
  induction d as [| [k' v'] d IH]; cbn [dict_get map snd]; [discriminate |].
  destruct (str_eqb k k').
  - intros [= ->]. left. reflexivity.
  - intros H. right. apply IH, H.
Qed.

Lemma intensity_at_values (words : list str) (i : nat) :
  In (intensity_at words i) (1.0%py :: map snd intensifiers).
Proof.
  unfold intensity_at.
  destruct (if (0 <? i)%nat then _ else None) as [k |] eqn:E1.
  - right. destruct (0 <? i)%nat; [| discriminate].
    eapply dict_get_In, E1.
  - destruct (if (1 <? i)%nat then _ else None) as [k |] eqn:E2.
    + right. destruct (1 <? i)%nat; [| discriminate].
      eapply dict_get_In, E2.
    + left. reflexivity.
Qed.

(** Every weight [1.0 * intensity] is at least [1.0]. *)
Lemma weight_ge_one (words : list str) (i : nat) :
  fleb 1.0%py (fmul 1.0%py (intensity_at words i)) = true.
Proof.
  pose proof (intensity_at_values words i) as H.
  assert (A : forallb (fun k => fleb 1.0%py (fmul 1.0%py k))
                (1.0%py :: map snd intensifiers) = true)
    by (vm_compute; reflexivity).
  rewrite forallb_forall in A. apply A, H.
Qed.

Lemma weight_positive (words : list str) (i : nat) :
  is_positive (fmul 1.0%py (intensity_at words i)) = true.
Proof.
  pose proof (intensity_at_values words i) as H.
  assert (A : forallb (fun k => is_positive (fmul 1.0%py k))
                (1.0%py :: map snd intensifiers) = true)
    by (vm_compute; reflexivity).
  rewrite forallb_forall in A. apply A, H.
Qed.

Lemma fadd_zero_l (f : float) :
  is_positive f = true -> fadd (float_of_int 0) f = f.
Proof.
  destruct f as [s | s | | s m e]; try discriminate;
    destruct s; try discriminate; reflexivity.
Qed.

Lemma fadd_zero_r (f : float) :
  is_positive f = true -> fadd f (float_of_int 0) = f.
Proof.
  destruct f as [s | s | | s m e]; try discriminate;
    destruct s; try discriminate; reflexivity.
Qed.

(** Adding a weight to an accumulator gives a float greater than zero. *)
Lemma py_add_weight (a : num) (f : float) :
  acc_ok a = true -> is_positive f = true ->
  is_positive_num (py_add a (PyFloat f)) = true.
Proof.
  destruct a as [z | g]; cbn [acc_ok py_add to_float is_positive_num].
  - intros Hz Hf. apply Z.eqb_eq in Hz. subst z.
    rewrite fadd_zero_l by exact Hf. exact Hf.
  - intros Hg Hf. apply fadd_positive; assumption.
Qed.

Lemma is_positive_num_ok (a : num) : is_positive_num a = true -> acc_ok a = true.
Proof. destruct a; [discriminate | trivial]. Qed.

Lemma step_spec (words : list str) (st : totals) (i : nat) (w : str) :
  scan_inv st ->
  scan_inv (step words st (i, w))
  /\ word_count (step words st (i, w))
     = word_count st + (if is_sentiment_word w then 1 else 0).
Proof.
  intros [Hp Hn Hc Hm].
  pose proof (py_add_weight _ _ Hp (weight_positive words i)) as Ap.
  pose proof (py_add_weight _ _ Hn (weight_positive words i)) as An.
  unfold step, is_sentiment_word.
  destruct (mem w positive_words); [| destruct (mem w negative_words)];
    cbn [orb]; try destruct (negated_at words i);
    (split; [constructor |]);
    cbn [positive_score negative_score word_count];
    auto using is_positive_num_ok; try lia;
    intros _; first [rewrite Ap | rewrite An]; auto using orb_true_r.
Qed.

Lemma fold_step_spec (words : list str) : forall (l : list str) (k : nat)
  (st : totals),
  scan_inv st ->
  let st' := fold_left (step words) (combine (seq k (length l)) l) st in
  scan_inv st'
  /\ word_count st'
     = word_count st + Z.of_nat (length (filter is_sentiment_word l)).
Proof.
  induction l as [| w l IH]; intros k st Hst; cbn zeta.
  - cbn. split; [exact Hst | lia].
  - cbn [length seq combine fold_left filter].
    destruct (step_spec words st k w Hst) as [H1 H2].
    destruct (IH (S k) _ H1) as [H3 H4]. cbn zeta in H3, H4.
    split; [exact H3 |]. rewrite H4, H2.
    destruct (is_sentiment_word w); cbn [length]; lia.
Qed.

Lemma scan_inv_init : scan_inv (mkTotals (PyInt 0) (PyInt 0) 0).
Proof. constructor; cbn; auto; lia. Qed.

Lemma scan_spec (words : list str) :
  scan_inv (scan words)
  /\ word_count (scan words)
     = Z.of_nat (length (filter is_sentiment_word words)).
Proof.
  destruct (fold_step_spec words words 0 _ scan_inv_init) as [H1 H2].
  split; [exact H1 | exact H2].
Qed.

(** After a scan that matched a word the total is a float greater than
    zero. *)
Lemma scan_total_positive (words : list str) :
  0 < word_count (scan words) ->
  exists f,
    py_add (positive_score (scan words)) (negative_score (scan words))
    = PyFloat f
    /\ is_positive f = true.
Proof.
  intros Hwc. destruct (scan_spec words) as [[Hp Hn _ Hm] _].
  specialize (Hm Hwc).
  destruct (positive_score (scan words)) as [zp | fp],
           (negative_score (scan words)) as [zn | fn];
    cbn [acc_ok is_positive_num orb py_add to_float] in *.
  - discriminate.
  - apply Z.eqb_eq in Hp. subst zp. exists fn.
    rewrite fadd_zero_l by exact Hm. auto.
  - apply Z.eqb_eq in Hn. subst zn. exists fp.
    rewrite orb_false_r in Hm. rewrite fadd_zero_r by exact Hm. auto.
  - eexists. split; [reflexivity |]. apply fadd_positive; assumption.
Qed.

Lemma filter_nonempty {A : Type} (p : A -> bool) (l : list A) (x : A) :
  In x l -> p x = true -> (0 < length (filter p l))%nat.
Proof.
  intros Hin Hp.
  assert (H : In x (filter p l)) by (apply filter_In; auto).
  destruct (filter p l); [contradiction | cbn; lia].
Qed.

End ScanFacts.

(* ================================================================= *)
(** * Facts about the word lists and the thresholds *)

Module LexiconFacts.

Import PyNum PyStr Lexicon Analyzer.

Lemma str_eqb_eq (a b : str) : str_eqb a b = true <-> a = b.
Proof.
  revert b. induction a as [| x a IH]; intros [| y b]; cbn [str_eqb];
    try (split; [discriminate | discriminate]); [tauto |].
  rewrite andb_true_iff, N.eqb_eq, IH.
  split; [intros [-> ->]; reflexivity | intros [= -> ->]; auto].
Qed.

Lemma mem_In (w : str) (s : list str) : mem w s = true <-> In w s.
Proof.
  unfold mem. rewrite existsb_exists. split.
  - intros [x [Hin Heq]]. apply str_eqb_eq in Heq. subst x. exact Hin.
  - intros Hin. exists w. split; [exact Hin | apply str_eqb_eq; reflexivity].
Qed.

Lemma dict_get_key {V : Type} (d : list (str * V)) (k : str) (v : V) :
  dict_get d k = Some v -> In k (map fst d).
Proof.
  induction d as [| [k' v'] d IH]; cbn [dict_get map fst]; [discriminate |].
  destruct (str_eqb k k') eqn:E.
  - intros _. left. symmetry. apply str_eqb_eq, E.
  - intros H. right. apply IH, H.
Qed.

(** No intensifier is a negation word. *)
Lemma intensifier_not_negation (w : str) (k : float) :
  dict_get intensifiers w = Some k -> mem w negation_words = false.
Proof.
  intros H. apply dict_get_key in H.
  assert (A : Forall (fun x => mem x negation_words = false)
                (map fst intensifiers))
    by (vm_compute; repeat constructor).
  rewrite Forall_forall in A. apply A, H.
Qed.

(** No negation word is an intensifier. *)
Lemma negation_not_intensifier (w : str) :
  mem w negation_words = true -> dict_get intensifiers w = None.
Proof.
  intros H. apply mem_In in H.
  assert (A : Forall (fun x => dict_get intensifiers x = None) negation_words)
    by (vm_compute; repeat constructor).
  rewrite Forall_forall in A. apply A, H.
Qed.

(** A score below [0.4] is not above [0.6]. *)
Lemma below_low_not_above_high (s : float) :
  fltb s 0.4%py = true -> fltb 0.6%py s = false.
Proof.
  destruct s as [[] | [] | | [] m e]; try reflexivity; try discriminate.
  unfold fltb, SFltb, SFcompare.
  destruct (Z.compare_spec e (-54)); destruct (Z.compare_spec (-53) e);
    try discriminate; try reflexivity; lia.
Qed.

Lemma SFcompare_swap (a b : float) (c : comparison) :
  SFcompare a b = Some c -> SFcompare b a = Some (CompOpp c).
Proof.
  destruct a as [sa | sa | | sa ma ea], b as [sb | sb | | sb mb eb];
    cbn [SFcompare]; try discriminate;
    try (destruct sa; intros [= <-]; reflexivity);
    try (destruct sb; intros [= <-]; reflexivity);
    try (destruct sa, sb; intros [= <-]; reflexivity).
  intros [= <-].
  pose proof (Pos.compare_cont_antisym ma mb Eq) as HA. cbn [CompOpp] in HA.
  rewrite (Z.compare_antisym ea eb), <- HA.
  destruct sa, sb; try reflexivity;
    destruct (ea ?= eb)%Z; cbn [CompOpp]; try reflexivity.
Qed.

(** A score that is at most [b] is not above [b]. *)
Lemma fleb_not_fltb (a b : float) : fleb a b = true -> fltb b a = false.
Proof.
  unfold fleb, fltb, SFleb, SFltb.
  destruct (SFcompare a b) as [c |] eqn:E; [| discriminate].
  rewrite (SFcompare_swap _ _ _ E).
  destruct c; cbn [CompOpp]; [reflexivity | reflexivity | discriminate].
Qed.

Lemma classify_spec (s : float) :
  (fltb 0.6%py s = true -> classify s = positive)
  /\ (fltb s 0.4%py = true -> classify s = negative)
  /\ (fleb 0.4%py s = true -> fleb s 0.6%py = true -> classify s = neutral).
Proof.
  unfold classify. repeat split.
  - intros ->. reflexivity.
  - intros H. rewrite (below_low_not_above_high _ H), H. reflexivity.
  - intros H1 H2.
    rewrite (fleb_not_fltb _ _ H2), (fleb_not_fltb _ _ H1). reflexivity.
Qed.

End LexiconFacts.

(* ================================================================= *)
(** * Facts about sorting and counting *)

Module KeywordFacts.

Import PyNum PyStr Lexicon Analyzer LexiconFacts.

Section StableSort.

Variable key : str -> Z.
Variable ord : str -> nat.

Lemma Forall_insert_by_freq (P : str * Z -> Prop) (x : str * Z)
  (l : list (str * Z)) :
  P x -> Forall P l -> Forall P (insert_by_freq x l).
Proof.
  intros Hx. induction 1 as [| y l Hy Hl IH]; cbn [insert_by_freq].
  - constructor; [exact Hx | constructor].
  - destruct (snd x <? snd y)%Z; repeat constructor; auto.
Qed.

Lemma Forall_sorted_by_freq (P : str * Z -> Prop) (l : list (str * Z)) :
  Forall P l -> Forall P (sorted_by_freq l).
Proof.
  induction 1 as [| x l Hx Hl IH]; cbn [sorted_by_freq];
    [constructor | apply Forall_insert_by_freq; assumption].
Qed.

Lemma insert_by_freq_sorted (x : str * Z) (l : list (str * Z)) :
  snd x = key (fst x) ->
  Forall (fun y => snd y = key (fst y)) l ->
  Forall (fun y => (ord (fst x) < ord (fst y))%nat) l ->
  StronglySorted (item_before key ord) l ->
  StronglySorted (item_before key ord) (insert_by_freq x l).
Proof.
  intros Hx Hkey Hord Hs.
  induction Hs as [| y l Hs IH Hy]; cbn [insert_by_freq].
  - repeat constructor.
  - inversion Hkey as [| ? ? Ky Kl]; subst.
    inversion Hord as [| ? ? Oy Ol]; subst.
    destruct (snd x <? snd y)%Z eqn:E.
    + apply Z.ltb_lt in E. constructor; [apply IH; assumption |].
      apply Forall_insert_by_freq; [| exact Hy].
      left. rewrite <- Hx, <- Ky. exact E.
    + apply Z.ltb_ge in E. constructor; [constructor; assumption |].
      constructor.
      * unfold item_before. rewrite <- Hx, <- Ky. lia.
      * rewrite Forall_forall in Hy, Ol |- *. intros z Hz.
        specialize (Hy z Hz). specialize (Ol z Hz).
        unfold item_before in *. rewrite <- Hx. rewrite <- Ky in Hy. lia.
Qed.

Lemma sorted_by_freq_sorted (l : list (str * Z)) :
  Forall (fun y => snd y = key (fst y)) l ->
  StronglySorted (fun x y => (ord (fst x) < ord (fst y))%nat) l ->
  StronglySorted (item_before key ord) (sorted_by_freq l).
Proof.
  intros Hkey Hs. induction Hs as [| x l Hs IH Hx]; cbn [sorted_by_freq].
  - constructor.
  - inversion Hkey as [| ? ? Kx Kl]; subst.
    apply insert_by_freq_sorted; auto using Forall_sorted_by_freq.
Qed.

End StableSort.

Lemma StronglySorted_map_fst (R : str -> str -> Prop) (l : list (str * Z)) :
  StronglySorted (fun x y => R (fst x) (fst y)) l ->
  StronglySorted R (map fst l).
Proof.
  induction 1 as [| x l Hs IH Hx]; cbn [map]; constructor; [exact IH |].
  rewrite Forall_map. exact Hx.
Qed.

Lemma firstn_In {A : Type} (n : nat) : forall (l : list A) (x : A),
  In x (firstn n l) -> In x l.
Proof.
  induction n as [| n IH]; intros [| y l] x; cbn [firstn In]; try tauto.
  intros [H | H]; [left; exact H | right; apply IH, H].
Qed.

Lemma StronglySorted_firstn {A : Type} (R : A -> A -> Prop) (n : nat)
  (l : list A) :
  StronglySorted R l -> StronglySorted R (firstn n l).
Proof.
  intros Hs. revert n.
  induction Hs as [| x l Hs IH Hx]; intros [| n]; cbn [firstn];
    try constructor; [apply IH |].
  rewrite Forall_forall in Hx |- *. intros y Hy. apply Hx.
  eapply firstn_In, Hy.
Qed.

Lemma StronglySorted_snoc {A : Type} (R : A -> A -> Prop) (l : list A)
  (x : A) :
  StronglySorted R l -> Forall (fun a => R a x) l ->
  StronglySorted R (l ++ [x]).
Proof.
  induction 1 as [| y l Hs IH Hy]; intros Hx; cbn [app].
  - repeat constructor.
  - inversion Hx; subst. constructor; [apply IH; assumption |].
    apply Forall_app. split; [exact Hy | repeat constructor; assumption].
Qed.

Lemma StronglySorted_weaken {A : Type} (R R' : A -> A -> Prop) (l : list A) :
  (forall a b, In a l -> In b l -> R a b -> R' a b) ->
  StronglySorted R l -> StronglySorted R' l.
Proof.
  intros H Hs. induction Hs as [| x l Hs IH Hx]; constructor.
  - apply IH. intros a b Ha Hb. apply H; right; assumption.
  - rewrite Forall_forall in Hx |- *. intros y Hy.
    apply H; [left; reflexivity | right; exact Hy | apply Hx, Hy].
Qed.

Lemma StronglySorted_NoDup {A : Type} (R : A -> A -> Prop) (l : list A) :
  (forall a, ~ R a a) -> StronglySorted R l -> NoDup l.
Proof.
  intros Hirr. induction 1 as [| x l Hs IH Hx]; constructor; [| exact IH].
  intros Hin. rewrite Forall_forall in Hx. exact (Hirr x (Hx x Hin)).
Qed.

Lemma StronglySorted_of_map_fst (R : str -> str -> Prop)
  (l : list (str * Z)) :
  StronglySorted R (map fst l) ->
  StronglySorted (fun x y => R (fst x) (fst y)) l.
Proof.
  induction l as [| x l IH]; cbn [map]; intros H; [constructor |].
  apply StronglySorted_inv in H. destruct H as [Hs Hx].
  constructor; [apply IH, Hs |]. rewrite Forall_map in Hx. exact Hx.
Qed.

(** ** Counting and first positions *)

Lemma str_eqb_refl (w : str) : str_eqb w w = true.
Proof. apply str_eqb_eq. reflexivity. Qed.

Lemma str_eqb_neq (a b : str) : str_eqb a b = false <-> a <> b.
Proof.
  rewrite <- str_eqb_eq. destruct (str_eqb a b); split; congruence.
Qed.

Lemma count_of_app (w : str) (l1 l2 : list str) :
  count_of w (l1 ++ l2) = (count_of w l1 + count_of w l2)%nat.
Proof. unfold count_of. rewrite filter_app, length_app. reflexivity. Qed.

Lemma count_of_notin (w : str) (l : list str) :
  ~ In w l -> count_of w l = 0%nat.
Proof.
  intros H. unfold count_of.
  destruct (filter (str_eqb w) l) as [| x f] eqn:E; [reflexivity |].
  exfalso. apply H.
  assert (Hx : In x (filter (str_eqb w) l)) by (rewrite E; left; reflexivity).
  apply filter_In in Hx. destruct Hx as [Hin Heq].
  apply str_eqb_eq in Heq. subst x. exact Hin.
Qed.

Lemma count_of_single (a w : str) :
  count_of a [w] = if str_eqb a w then 1%nat else 0%nat.
Proof. unfold count_of. cbn [filter]. destruct (str_eqb a w); reflexivity. Qed.

Lemma count_of_filter (f : str -> bool) (w : str) (l : list str) :
  f w = true -> count_of w (filter f l) = count_of w l.
Proof.
  intros Hw. unfold count_of.
  induction l as [| x l IH]; cbn [filter]; [reflexivity |].
  destruct (f x) eqn:Ef; cbn [filter].
  - destruct (str_eqb w x); cbn [length]; rewrite IH; reflexivity.
  - destruct (str_eqb w x) eqn:E; [| exact IH].
    apply str_eqb_eq in E. congruence.
Qed.

Lemma index_of_lt (w : str) (l : list str) :
  In w l -> (index_of w l < length l)%nat.
Proof.
  induction l as [| x l IH]; cbn [In index_of length]; [tauto |].
  destruct (str_eqb w x) eqn:E; [lia |].
  intros [H | H]; [apply str_eqb_neq in E; congruence |].
  specialize (IH H). lia.
Qed.

Lemma index_of_app_l (w : str) (l1 l2 : list str) :
  In w l1 -> index_of w (l1 ++ l2) = index_of w l1.
Proof.
  induction l1 as [| x l1 IH]; cbn [In index_of app]; [tauto |].
  destruct (str_eqb w x) eqn:E; [reflexivity |].
  intros [H | H]; [apply str_eqb_neq in E; congruence |].
  rewrite (IH H). reflexivity.
Qed.

Lemma index_of_app_r (w : str) (l1 l2 : list str) :
  ~ In w l1 -> index_of w (l1 ++ l2) = (length l1 + index_of w l2)%nat.
Proof.
  induction l1 as [| x l1 IH]; cbn [In index_of app length]; [reflexivity |].
  intros H. destruct (str_eqb w x) eqn:E.
  - apply str_eqb_eq in E. subst x. tauto.
  - rewrite IH by tauto. reflexivity.
Qed.

(** Filtering the list keeps the order of the first positions of the
    words that pass the filter. *)
Lemma index_of_filter (f : str -> bool) (a b : str) (l : list str) :
  f a = true -> f b = true ->
  (index_of a (filter f l) < index_of b (filter f l))%nat ->
  (index_of a l < index_of b l)%nat.
Proof.
  intros Ha Hb. induction l as [| x l IH]; cbn [filter index_of]; [lia |].
  destruct (f x) eqn:Ef; cbn [index_of].
  - destruct (str_eqb a x), (str_eqb b x); lia.
  - destruct (str_eqb a x) eqn:Ea;
      [apply str_eqb_eq in Ea; congruence |].
    destruct (str_eqb b x) eqn:Eb;
      [apply str_eqb_eq in Eb; congruence |].
    intros H. apply IH in H. lia.
Qed.

(** ** The frequency dict *)

Lemma dict_get_In_item {V : Type} (d : list (str * V)) (w : str) (c : V) :
  dict_get d w = Some c -> In (w, c) d.
Proof.
  induction d as [| [k v] d IH]; cbn [dict_get]; [discriminate |].
  destruct (str_eqb w k) eqn:E.
  - apply str_eqb_eq in E. subst k. intros [= ->]. left. reflexivity.
  - intros H. right. apply IH, H.
Qed.

Lemma dict_get_None {V : Type} (d : list (str * V)) (w : str) :
  dict_get d w = None -> ~ In w (map fst d).
Proof.
  induction d as [| [k v] d IH]; cbn [dict_get map fst In]; [tauto |].
  destruct (str_eqb w k) eqn:E; [discriminate |].
  apply str_eqb_neq in E. intros H [H1 | H1]; [congruence | exact (IH H H1)].
Qed.

Lemma dict_set_keys {V : Type} (d : list (str * V)) (w : str) (v : V) :
  map fst (dict_set d w v)
  = match dict_get d w with
    | Some _ => map fst d
    | None => map fst d ++ [w]
    end.
Proof.
  induction d as [| [k v'] d IH]; cbn [dict_set dict_get map fst app];
    [reflexivity |].
  destruct (str_eqb w k); cbn [map fst]; [reflexivity |].
  rewrite IH. destruct (dict_get d w); reflexivity.
Qed.

Lemma dict_set_items {V : Type} (d : list (str * V)) (w : str) (v : V) :
  NoDup (map fst d) ->
  forall x, In x (dict_set d w v) -> x = (w, v) \/ (In x d /\ fst x <> w).
Proof.
  induction d as [| [k v'] d IH]; cbn [dict_set map fst]; intros Hnd x.
  - intros [<- | []]. left. reflexivity.
  - apply NoDup_cons_iff in Hnd. destruct Hnd as [Hk Hnd].
    destruct (str_eqb w k) eqn:E.
    + apply str_eqb_eq in E. subst k. intros [<- | Hx]; [left; reflexivity |].
      right. split; [right; exact Hx |].
      intros Heq. apply Hk. rewrite <- Heq. apply in_map, Hx.
    + apply str_eqb_neq in E. intros [<- | Hx].
      * right. split; [left; reflexivity | cbn; congruence].
      * destruct (IH Hnd x Hx) as [-> | [H1 H2]]; [left; reflexivity |].
        right. split; [right; exact H1 | exact H2].
Qed.

Lemma freq_inv_step (p : list str) (d : list (str * Z)) (w : str) :
  freq_inv p d -> freq_inv (p ++ [w]) (count_word d w).
Proof.
  intros [Hord [Hitems Hkeys]].
  assert (Hnd : NoDup (map fst d))
    by (eapply StronglySorted_NoDup; [| exact Hord]; intros a; cbn beta; lia).
  assert (Hin : forall k, In k (map fst d) -> In k p).
  { intros k Hk. apply in_map_iff in Hk. destruct Hk as [x [<- Hx]].
    rewrite Forall_forall in Hitems. apply Hitems, Hx. }
  assert (Hord' : StronglySorted
            (fun a b => (index_of a (p ++ [w]) < index_of b (p ++ [w]))%nat)
            (map fst d)).
  { eapply StronglySorted_weaken; [| exact Hord].
    intros a b Ha Hb. cbn beta.
    rewrite !index_of_app_l by auto. trivial. }
  unfold count_word, freq_inv. rewrite dict_set_keys. repeat split.
  - destruct (dict_get d w) as [c |] eqn:E; [exact Hord' |].
    apply StronglySorted_snoc; [exact Hord' |].
    apply dict_get_None in E.
    assert (Hw : ~ In w p) by (intros H; apply E, Hkeys, H).
    rewrite Forall_forall. intros a Ha.
    rewrite index_of_app_l by auto. rewrite index_of_app_r by exact Hw.
    pose proof (index_of_lt a p (Hin a Ha)). lia.
  - rewrite Forall_forall in Hitems |- *. intros x Hx.
    destruct (dict_set_items d w _ Hnd x Hx) as [-> | [Hxd Hne]].
    + cbn [fst snd]. split; [apply in_or_app; right; left; reflexivity |].
      rewrite count_of_app, count_of_single, str_eqb_refl.
      destruct (dict_get d w) as [c |] eqn:E.
      * apply dict_get_In_item in E. destruct (Hitems _ E) as [_ Hc].
        cbn [fst snd] in Hc. lia.
      * apply dict_get_None in E.
        rewrite count_of_notin by (intros H; apply E, Hkeys, H). lia.
    + destruct (Hitems x Hxd) as [H1 H2].
      split; [apply in_or_app; left; exact H1 |].
      rewrite count_of_app, count_of_single.
      apply str_eqb_neq in Hne. rewrite Hne. rewrite H2. f_equal. lia.
  - intros k Hk. apply in_app_or in Hk.
    destruct (dict_get d w) as [c |] eqn:E.
    + destruct Hk as [Hk | [<- | []]]; [apply Hkeys, Hk |].
      apply dict_get_In_item in E.
      change w with (fst (w, c)). apply in_map, E.
    + apply in_or_app.
      destruct Hk as [Hk | [<- | []]]; [left; apply Hkeys, Hk |].
      right. left. reflexivity.
Qed.

Lemma word_freq_inv (keywords : list str) :
  freq_inv keywords (fold_left count_word keywords []).
Proof.
  induction keywords as [| w p IH] using rev_ind.
  - repeat split; cbn; [constructor | constructor | tauto].
  - rewrite fold_left_app. cbn [fold_left]. apply freq_inv_step, IH.
Qed.

(** The sorted items of the frequency dict of the keywords of [words]:
    every key is a keyword token, and the keys are in the order of
    [keyword_before]. *)
Lemma sorted_keywords_spec (words : list str) :
  let items :=
    sorted_by_freq (fold_left count_word (filter is_keyword words) []) in
  StronglySorted (keyword_before words) (map fst items)
  /\ Forall (fun w => In w words /\ is_keyword w = true) (map fst items).
Proof.
  intros items. subst items.
  destruct (word_freq_inv (filter is_keyword words)) as [Hord [Hitems _]].
  set (d := fold_left count_word (filter is_keyword words) []) in *.
  assert (Hkw : Forall (fun x => In (fst x) words /\ is_keyword (fst x) = true) d).
  { eapply Forall_impl; [| exact Hitems]. intros x [Hx _].
    apply filter_In in Hx. exact Hx. }
  split.
  - apply StronglySorted_map_fst.
    eapply StronglySorted_weaken;
      [| apply (sorted_by_freq_sorted
                  (fun w => Z.of_nat (count_of w words))
                  (fun w => index_of w words))].
    + intros a b _ _ [H | [H1 H2]]; [left; lia | right; split; [lia | exact H2]].
    + rewrite Forall_forall in Hitems, Hkw |- *. intros x Hx.
      destruct (Hitems x Hx) as [_ ->]. destruct (Hkw x Hx) as [_ Hk].
      rewrite count_of_filter by exact Hk. reflexivity.
    + apply StronglySorted_of_map_fst in Hord.
      eapply StronglySorted_weaken; [| exact Hord].
      rewrite Forall_forall in Hkw.
      intros a b Ha Hb. cbn beta.
      apply index_of_filter; [apply (Hkw a Ha) | apply (Hkw b Hb)].
  - rewrite Forall_map. apply Forall_sorted_by_freq. exact Hkw.
Qed.

Lemma keyword_before_irrefl (words : list str) (a : str) :
  ~ keyword_before words a a.
Proof. unfold keyword_before. lia. Qed.

Lemma fold_left_append {A B : Type} (f : A -> B) (l : list A) :
  forall acc : list B,
    fold_left (fun results x => results ++ [f x]) l acc = acc ++ map f l.
Proof.
  induction l as [| x l IH]; intros acc; cbn [fold_left map].
  - rewrite app_nil_r. reflexivity.
  - rewrite IH, <- app_assoc. reflexivity.
Qed.

End KeywordFacts.

(* ================================================================= *)
(** * Properties of [analyze_sentiment] *)

Import PyNum PyStr Lexicon Analyzer.
Import FloatFacts ScanFacts LexiconFacts.

Section SentimentProperties.

Context {ucd : UnicodeData}.

Local Open Scope Z_scope.

Lemma cleaned_nonempty (text : str) :
  (3 <= length (lower (preprocess_text text)))%nat -> text <> [].
Proof.
  intros H ->. cbn [preprocess_text] in H. rewrite lower_nil in H.
  cbn in H. lia.
Qed.

Lemma analyze_sentiment_body (text : str) :
  text <> [] ->
  analyze_sentiment (Some text)
  = match analyze_body text with
    | Some r => r
    | None => fallback 0.0%py
    end.
Proof. destruct text; [congruence | reflexivity]. Qed.


(** The body of [analyze_sentiment] on a text with a matched word: the
    guard [total_score == 0] is false, both divisions succeed, and the
    result is the normalised one. *)
Lemma analyze_body_matched (text : str) :
  let words := split (lower (preprocess_text text)) in
  let st := scan words in
  (3 <= length (lower (preprocess_text text)))%nat ->
  0 < word_count st ->
  exists s q,
    py_truediv (positive_score st)
      (py_add (positive_score st) (negative_score st)) = Some s
    /\ py_truediv (PyInt (word_count st)) (PyInt (Z.of_nat (length words)))
       = Some q
    /\ analyze_body text
       = Some (mkResult (classify s) s (py_min q 1.0%py)
                 [("positive", positive_score st);
                  ("negative", negative_score st);
                  ("word_count", PyInt (word_count st))]%string None).
Proof.
  intros words st Hlen Hwc.
  destruct (scan_total_positive words Hwc) as [f [Hf Hpos]].
  fold st in Hf.
  destruct (scan_spec words) as [_ Hcount]. fold st in Hcount.
  assert (Hwords : Z.of_nat (length words) <> 0).
  { pose proof (filter_length_le is_sentiment_word words). lia. }
  exists (fdiv (to_float (positive_score st)) f).
  exists (fdiv (Z2SF (word_count st)) (Z2SF (Z.of_nat (length words)))).
  assert (Hdiv : py_truediv (positive_score st) (PyFloat f)
                 = Some (fdiv (to_float (positive_score st)) f)).
  { unfold py_truediv. cbn [to_float].
    rewrite (positive_not_zero f Hpos). destruct (positive_score st); reflexivity. }
  assert (Hq : py_truediv (PyInt (word_count st))
                 (PyInt (Z.of_nat (length words)))
               = Some (fdiv (Z2SF (word_count st))
                         (Z2SF (Z.of_nat (length words))))).
  { unfold py_truediv. apply Z.eqb_neq in Hwords. rewrite Hwords. reflexivity. }
  rewrite Hf. split; [exact Hdiv |]. split; [exact Hq |].
  unfold analyze_body. fold words. fold st.
  apply Nat.ltb_ge in Hlen. rewrite Hlen.
  assert (Hnz : (word_count st =? 0) = false) by (apply Z.eqb_neq; lia).
  rewrite Hnz, Hf. cbn [py_eq_zero]. rewrite (positive_not_zero f Hpos).
  rewrite Hdiv, Hq. reflexivity.
Qed.

(** C1: on a text whose cleaned lowercase form has at least three
    characters and a token in the positive or negative words,
    [analyze_sentiment] returns score = positive_score / (positive_score
    + negative_score) and confidence = min(word_count / len(words), 1.0),
    where word_count is the number of matched tokens and [words] the
    whitespace-delimited tokens of the cleaned text; and on
    "bra bra dålig" the score is 2/3 and the sentiment positive. *)
Theorem analyze_score_and_confidence :
  (forall text : str,
     let words := split (lower (preprocess_text text)) in
     let st := scan words in
     let r := analyze_sentiment (Some text) in
     (3 <= length (lower (preprocess_text text)))%nat ->
     (exists w, In w words /\ is_sentiment_word w = true) ->
     exists s q,
       py_truediv (positive_score st)
         (py_add (positive_score st) (negative_score st)) = Some s
       /\ py_truediv
            (PyInt (Z.of_nat (length (filter is_sentiment_word words))))
            (PyInt (Z.of_nat (length words))) = Some q
       /\ score r = s
       /\ confidence r = py_min q 1.0%py
       /\ scores r = [("positive", positive_score st);
                      ("negative", negative_score st);
                      ("word_count",
                       PyInt (Z.of_nat
                                (length (filter is_sentiment_word words))))
                     ]%string)
  /\ score (analyze_sentiment (ucd := latin1) (Some (u "bra bra dålig")))
     = fdiv (Z2SF 2) (Z2SF 3)
  /\ sentiment (analyze_sentiment (ucd := latin1) (Some (u "bra bra dålig")))
     = positive.
Proof.
  split; [| split; vm_compute; reflexivity].
  intros text words st r Hlen [w [Hin Hw]].
  destruct (scan_spec words) as [_ Hcount]. fold st in Hcount.
  assert (Hwc : 0 < word_count st).
  { rewrite Hcount. pose proof (filter_nonempty _ _ _ Hin Hw). lia. }
  destruct (analyze_body_matched text Hlen Hwc) as [s [q [Hs [Hq Hbody]]]].
  fold words in Hq, Hbody. fold st in Hs, Hq, Hbody.
  exists s, q. rewrite <- Hcount.
  split; [exact Hs |]. split; [exact Hq |].
  subst r. rewrite (analyze_sentiment_body text (cleaned_nonempty text Hlen)).
  rewrite Hbody. cbn [score confidence scores]. auto.
Qed.

(** C9: whenever the scan matched a word, positive_score +
    negative_score is a float greater than zero, so the guard
    [total_score == 0] of the fallback (score 0.5, confidence 0.1) is
    false; and every matched word adds a weight [1.0 * intensity] that
    is at least [1.0]. *)
Theorem total_score_never_zero :
  (forall words : list str,
     0 < word_count (scan words) ->
     exists f,
       py_add (positive_score (scan words)) (negative_score (scan words))
       = PyFloat f
       /\ fltb 0.0%py f = true
       /\ py_eq_zero
            (py_add (positive_score (scan words)) (negative_score (scan words)))
          = false)
  /\ (forall (words : list str) (i : nat),
        fleb 1.0%py (fmul 1.0%py (intensity_at words i)) = true).
Proof.
  split; [| exact weight_ge_one].
  intros words Hwc.
  destruct (scan_total_positive words Hwc) as [f [Hf Hpos]].
  exists f. rewrite Hf. cbn [py_eq_zero].
  auto using positive_gt_zero, positive_not_zero.
Qed.

(** C2: for every input the label follows from the returned score:
    a score above 0.6 is positive, a score below 0.4 is negative, and a
    score in the closed interval from 0.4 to 0.6 is neutral; the scores
    exactly 0.6 and exactly 0.4 (three of five, two of five matched
    words positive) are neutral. *)
Theorem sentiment_follows_thresholds :
  (forall text : option str,
     let r := analyze_sentiment text in
     sentiment r = classify (score r)
     /\ (fltb 0.6%py (score r) = true -> sentiment r = positive)
     /\ (fltb (score r) 0.4%py = true -> sentiment r = negative)
     /\ (fleb 0.4%py (score r) = true -> fleb (score r) 0.6%py = true ->
         sentiment r = neutral))
  /\ (let r := analyze_sentiment (ucd := latin1)
                 (Some (u "bra bra bra dålig dålig")) in
      score r = 0.6%py /\ sentiment r = neutral)
  /\ (let r := analyze_sentiment (ucd := latin1)
                 (Some (u "bra bra dålig dålig dålig")) in
      score r = 0.4%py /\ sentiment r = neutral).
Proof.
  split; [| split; vm_compute; auto].
  intros text r.
  assert (H : sentiment r = classify (score r)).
  { subst r. unfold analyze_sentiment.
    destruct text as [[| c s] |]; try reflexivity.
    unfold analyze_body.
    destruct (length (lower (preprocess_text (c :: s))) <? 3)%nat;
      [reflexivity |].
    destruct (word_count _ =? 0); [reflexivity |].
    destruct (py_eq_zero _); [reflexivity |].
    destruct (py_truediv (positive_score _) _); [| reflexivity].
    destruct (py_truediv (PyInt _) _); reflexivity. }
  split; [exact H |]. rewrite H. apply classify_spec.
Qed.

(** C3: a positive word with a negation word one or two tokens before
    it adds its weight to negative_score and leaves positive_score as
    it was; "inte bra" is negative with score 0, negative_score 1.0 and
    positive_score 0. *)
Theorem negation_flips_positive_word :
  (forall (words : list str) (st : totals) (i : nat) (w : str),
     nth_error words i = Some w ->
     mem w positive_words = true ->
     ((0 < i)%nat /\ mem (word_at words (i - 1)) negation_words = true)
     \/ ((1 < i)%nat /\ mem (word_at words (i - 2)) negation_words = true) ->
     step words st (i, w)
     = mkTotals (positive_score st)
         (py_add (negative_score st)
            (PyFloat (fmul 1.0%py (intensity_at words i))))
         (word_count st + 1))
  /\ analyze_sentiment (ucd := latin1) (Some (u "inte bra"))
     = mkResult negative 0.0%py 0.5%py
         [("positive", PyInt 0); ("negative", PyFloat 1.0%py);
          ("word_count", PyInt 1)]%string None.
Proof.
  split; [| vm_compute; reflexivity].
  intros words st i w _ Hw Hneg.
  assert (Hn : negated_at words i = true).
  { unfold negated_at. destruct Hneg as [[Hi Hm] | [Hi Hm]].
    - apply Nat.ltb_lt in Hi. rewrite Hi, Hm. reflexivity.
    - apply Nat.ltb_lt in Hi. rewrite Hi, Hm.
      destruct (_ && _); reflexivity. }
  unfold step. rewrite Hw, Hn. reflexivity.
Qed.

(** C4: an intensifier before a sentiment word (directly before it,
    or two places back when the token between is no intensifier)
    multiplies the word's weight by its factor and has no part in the
    polarity: the side is chosen by the negation flag alone, and no
    intensifier is a negation word; "mycket bra" is positive and its
    positive_score is 1.5 times that of "bra". *)
Theorem intensifier_scales_weight :
  (forall (words : list str) (st : totals) (i : nat) (w : str) (k : float),
     ((0 < i)%nat /\ dict_get intensifiers (word_at words (i - 1)) = Some k)
     \/ ((1 < i)%nat
         /\ dict_get intensifiers (word_at words (i - 1)) = None
         /\ dict_get intensifiers (word_at words (i - 2)) = Some k) ->
     intensity_at words i = k
     /\ (mem w positive_words = true ->
         step words st (i, w)
         = if negated_at words i
           then mkTotals (positive_score st)
                  (py_add (negative_score st) (PyFloat (fmul 1.0%py k)))
                  (word_count st + 1)
           else mkTotals
                  (py_add (positive_score st) (PyFloat (fmul 1.0%py k)))
                  (negative_score st) (word_count st + 1))
     /\ (mem w positive_words = false -> mem w negative_words = true ->
         step words st (i, w)
         = if negated_at words i
           then mkTotals
                  (py_add (positive_score st) (PyFloat (fmul 1.0%py k)))
                  (negative_score st) (word_count st + 1)
           else mkTotals (positive_score st)
                  (py_add (negative_score st) (PyFloat (fmul 1.0%py k)))
                  (word_count st + 1)))
  /\ (forall (w : str) (k : float),
        dict_get intensifiers w = Some k -> mem w negation_words = false)
  /\ analyze_sentiment (ucd := latin1) (Some (u "mycket bra"))
     = mkResult positive 1.0%py 0.5%py
         [("positive", PyFloat 1.5%py); ("negative", PyInt 0);
          ("word_count", PyInt 1)]%string None
  /\ analyze_sentiment (ucd := latin1) (Some (u "bra"))
     = mkResult positive 1.0%py 1.0%py
         [("positive", PyFloat 1.0%py); ("negative", PyInt 0);
          ("word_count", PyInt 1)]%string None
  /\ fmul 1.5%py 1.0%py = 1.5%py.
Proof.
  split; [| split; [exact intensifier_not_negation |];
            repeat split; vm_compute; reflexivity].
  intros words st i w k H.
  assert (Hint : intensity_at words i = k).
  { unfold intensity_at. destruct H as [[Hi Hk] | [Hi [Hn Hk]]].
    - apply Nat.ltb_lt in Hi. rewrite Hi, Hk. reflexivity.
    - apply Nat.ltb_lt in Hi. rewrite Hi, Hn, Hk.
      destruct (0 <? i)%nat; reflexivity. }
  split; [exact Hint |]. unfold step. rewrite Hint. split.
  - intros ->. destruct (negated_at words i); reflexivity.
  - intros -> ->. destruct (negated_at words i); reflexivity.
Qed.

(** C8: the negation flag and the intensity of a token are looked up
    separately in the two preceding tokens: with a negation word at
    [i-1] and an intensifier at [i-2], or the other way round, a
    sentiment word at [i] is negated and weighted by the intensifier's
    factor; in "mycket inte bra" the word "bra" adds 1.5 to
    negative_score. *)
Theorem negation_and_intensity_independent :
  (forall (words : list str) (st : totals) (i : nat) (w : str) (k : float),
     (1 < i)%nat ->
     (mem (word_at words (i - 1)) negation_words = true
      /\ dict_get intensifiers (word_at words (i - 2)) = Some k)
     \/ (dict_get intensifiers (word_at words (i - 1)) = Some k
         /\ mem (word_at words (i - 2)) negation_words = true) ->
     negated_at words i = true
     /\ intensity_at words i = k
     /\ (mem w positive_words = true ->
         step words st (i, w)
         = mkTotals (positive_score st)
             (py_add (negative_score st) (PyFloat (fmul 1.0%py k)))
             (word_count st + 1))
     /\ (mem w positive_words = false -> mem w negative_words = true ->
         step words st (i, w)
         = mkTotals (py_add (positive_score st) (PyFloat (fmul 1.0%py k)))
             (negative_score st) (word_count st + 1)))
  /\ scores (analyze_sentiment (ucd := latin1) (Some (u "mycket inte bra")))
     = [("positive", PyInt 0); ("negative", PyFloat 1.5%py);
        ("word_count", PyInt 1)]%string
  /\ scores (analyze_sentiment (ucd := latin1) (Some (u "inte mycket bra")))
     = [("positive", PyInt 0); ("negative", PyFloat 1.5%py);
        ("word_count", PyInt 1)]%string.
Proof.
  split; [| split; vm_compute; reflexivity].
  intros words st i w k Hi H.
  assert (H0 : (0 <? i)%nat = true) by (apply Nat.ltb_lt; lia).
  apply Nat.ltb_lt in Hi.
  assert (Hn : negated_at words i = true).
  { unfold negated_at. rewrite H0, Hi.
    destruct H as [[Hm _] | [_ Hm]]; rewrite Hm; [reflexivity |].
    destruct (mem (word_at words (i - 1)) negation_words); reflexivity. }
  assert (Hk : intensity_at words i = k).
  { unfold intensity_at. rewrite H0, Hi.
    destruct H as [[Hm Hd] | [Hd _]].
    - rewrite (negation_not_intensifier _ Hm), Hd. reflexivity.
    - rewrite Hd. reflexivity. }
  split; [exact Hn |]. split; [exact Hk |].
  unfold step. rewrite Hn, Hk. split.
  - intros ->. reflexivity.
  - intros -> ->. reflexivity.
Qed.


End SentimentProperties.

Lemma analyze_score_and_confidence_witness :
  exists s q,
    score (analyze_sentiment (ucd := latin1)
             (Some (u "inte bra, mycket dålig service"))) = s
    /\ confidence (analyze_sentiment (ucd := latin1)
                     (Some (u "inte bra, mycket dålig service")))
       = py_min q 1.0%py
    /\ s = 0.0%py /\ q = fdiv (Z2SF 1) (Z2SF 5).
Proof.
  destruct (proj1 (@analyze_score_and_confidence latin1)
              (u "inte bra, mycket dålig service")) as [s [q H]].
  - vm_compute. lia.
  - exists (u "dålig"). split; [vm_compute; auto 10 | vm_compute; reflexivity].
  - exists s, q. destruct H as [Hs [Hq [H1 [H2 _]]]].
    vm_compute in Hs, Hq. injection Hs as <-. injection Hq as <-.
    repeat split; assumption.
Defined.

Lemma total_score_never_zero_witness :
  exists f,
    py_add (positive_score (scan [u "inte"; u "bra"; u "helt"; u "usel"]))
           (negative_score (scan [u "inte"; u "bra"; u "helt"; u "usel"]))
    = PyFloat f
    /\ fltb 0.0%py f = true.
Proof.
  destruct (proj1 total_score_never_zero
              [u "inte"; u "bra"; u "helt"; u "usel"]) as [f [H1 [H2 _]]].
  - vm_compute. reflexivity.
  - exists f. split; assumption.
Defined.


Lemma sentiment_follows_thresholds_witness :
  sentiment (analyze_sentiment (ucd := latin1)
               (Some (u "fantastisk service, riktigt bra"))) = positive
  /\ sentiment (analyze_sentiment (ucd := latin1)
                  (Some (u "dålig och trasig"))) = negative
  /\ sentiment (analyze_sentiment (ucd := latin1)
                  (Some (u "bra men dyr"))) = neutral.
Proof.
  split; [| split].
  - apply (proj1 (@sentiment_follows_thresholds latin1)
             (Some (u "fantastisk service, riktigt bra"))).
    vm_compute. reflexivity.
  - apply (proj1 (@sentiment_follows_thresholds latin1)
             (Some (u "dålig och trasig"))).
    vm_compute. reflexivity.
  - apply (proj1 (@sentiment_follows_thresholds latin1)
             (Some (u "bra men dyr"))); vm_compute; reflexivity.
Defined.

Lemma negation_flips_positive_word_witness :
  step [u "aldrig"; u "riktigt"; u "bra"]
       (mkTotals (PyInt 0) (PyInt 0) 0) (2%nat, u "bra")
  = mkTotals (PyInt 0) (PyFloat 1.0%py) 1.
Proof.
  rewrite (proj1 negation_flips_positive_word
             [u "aldrig"; u "riktigt"; u "bra"]
             (mkTotals (PyInt 0) (PyInt 0) 0) 2%nat (u "bra")).
  - vm_compute. reflexivity.
  - vm_compute. reflexivity.
  - vm_compute. reflexivity.
  - right. split; [lia | vm_compute; reflexivity].
Defined.

Lemma intensifier_scales_weight_witness :
  step [u "extremt"; u "dålig"] (mkTotals (PyInt 0) (PyInt 0) 0)
       (1%nat, u "dålig")
  = mkTotals (PyInt 0) (PyFloat 2.0%py) 1
  /\ mem (u "extremt") negation_words = false.
Proof.
  destruct intensifier_scales_weight as [H1 [H2 _]].
  destruct (H1 [u "extremt"; u "dålig"] (mkTotals (PyInt 0) (PyInt 0) 0)
              1%nat (u "dålig") 2.0%py) as [_ [_ H]].
  - left. split; [lia | vm_compute; reflexivity].
  - split.
    + rewrite H; vm_compute; reflexivity.
    + apply (H2 (u "extremt") 2.0%py). vm_compute. reflexivity.
Defined.

Lemma negation_and_intensity_independent_witness :
  step [u "väldigt"; u "inte"; u "nöjd"] (mkTotals (PyInt 0) (PyInt 0) 0)
       (2%nat, u "nöjd")
  = mkTotals (PyInt 0) (PyFloat 1.5%py) 1.
Proof.
  destruct (proj1 negation_and_intensity_independent
              [u "väldigt"; u "inte"; u "nöjd"]
              (mkTotals (PyInt 0) (PyInt 0) 0) 2%nat (u "nöjd") 1.5%py)
    as [_ [_ [H _]]].
  - lia.
  - left. split; vm_compute; reflexivity.
  - rewrite H; vm_compute; reflexivity.
Defined.


(* ================================================================= *)
(** * Properties of [extract_keywords] and [batch_analyze] *)

Import KeywordFacts.

Section KeywordProperties.

Context {ucd : UnicodeData}.

Lemma extract_keywords_unfold (text : str) (max_keywords : Z) :
  extract_keywords (Some text) max_keywords
  = map fst
      (slice_to
         (sorted_by_freq
            (fold_left count_word (filter is_keyword (keyword_tokens text)) []))
         max_keywords)
  \/ text = [] /\ extract_keywords (Some text) max_keywords = [].
Proof. destruct text; [right; auto | left; reflexivity]. Qed.

Lemma slice_to_firstn {A : Type} (l : list A) (stop : Z) :
  exists n, slice_to l stop = firstn n l
            /\ (0 <= stop -> n = Z.to_nat stop)%Z.
Proof.
  unfold slice_to. destruct (stop <? 0)%Z eqn:E.
  - eexists. split; [reflexivity |]. apply Z.ltb_lt in E. lia.
  - eexists. split; [reflexivity | reflexivity].
Qed.

(** The keywords are an initial part of the sorted keys. *)
Lemma extract_keywords_spec (text : str) (max_keywords : Z) :
  let res := extract_keywords (Some text) max_keywords in
  StronglySorted (keyword_before (keyword_tokens text)) res
  /\ Forall (fun w => In w (keyword_tokens text) /\ is_keyword w = true) res
  /\ (0 <= max_keywords -> Z.of_nat (length res) <= max_keywords)%Z.
Proof.
  intros res. subst res.
  destruct (extract_keywords_unfold text max_keywords) as [-> | [_ ->]];
    [| repeat split; [constructor | constructor | cbn; lia]].
  destruct (sorted_keywords_spec (keyword_tokens text)) as [Hs Hf].
  cbn zeta in Hs, Hf.
  destruct (slice_to_firstn
              (sorted_by_freq
                 (fold_left count_word
                    (filter is_keyword (keyword_tokens text)) []))
              max_keywords) as [n [-> Hn]].
  rewrite <- firstn_map. repeat split.
  - apply StronglySorted_firstn, Hs.
  - rewrite Forall_forall in Hf |- *. intros w Hw.
    apply Hf. eapply firstn_In, Hw.
  - intros Hk. rewrite (Hn Hk).
    pose proof (firstn_le_length (Z.to_nat max_keywords)
                  (map fst
                     (sorted_by_freq
                        (fold_left count_word
                           (filter is_keyword (keyword_tokens text)) [])))).
    lia.
Qed.

(** C6, as the code has it: for every text and every [max_keywords],
    no keyword returned is a stop word or has three characters or
    fewer, the keywords are in descending frequency in the cleaned text
    with the earlier first occurrence first among equally frequent
    ones, and an empty or [None] text gives the empty list; for
    [max_keywords >= 0] there are at most [max_keywords] of them. *)
Theorem extract_keywords_filtered_sorted_bounded :
  forall (text : str) (max_keywords : Z),
    let res := extract_keywords (Some text) max_keywords in
    ((0 <= max_keywords)%Z -> (Z.of_nat (length res) <= max_keywords)%Z)
    /\ Forall (fun w => (3 < length w)%nat /\ mem w stop_words = false) res
    /\ StronglySorted (keyword_before (keyword_tokens text)) res
    /\ extract_keywords None max_keywords = []
    /\ extract_keywords (Some []) max_keywords = [].
Proof.
  intros text max_keywords res.
  destruct (extract_keywords_spec text max_keywords) as [Hs [Hf Hlen]].
  fold res in Hs, Hf, Hlen.
  split; [exact Hlen |]. split; [| split; [exact Hs | split; reflexivity]].
  eapply Forall_impl; [| exact Hf]. cbn beta. intros w [_ Hw].
  unfold is_keyword in Hw. apply andb_true_iff in Hw. destruct Hw as [H1 H2].
  apply Nat.ltb_lt in H1. apply negb_true_iff in H2. auto.
Qed.

(** C10: the keywords returned are pairwise distinct, and each of them
    is a token of the cleaned (lowercased, punctuation replaced by
    spaces) text. *)
Theorem extract_keywords_distinct_tokens :
  forall (text : str) (max_keywords : Z),
    NoDup (extract_keywords (Some text) max_keywords)
    /\ Forall (fun w => In w (keyword_tokens text))
         (extract_keywords (Some text) max_keywords).
Proof.
  intros text max_keywords.
  destruct (extract_keywords_spec text max_keywords) as [Hs [Hf _]].
  split.
  - eapply StronglySorted_NoDup; [| exact Hs].
    apply keyword_before_irrefl.
  - eapply Forall_impl; [| exact Hf]. cbn beta. tauto.
Qed.

(** C7: [batch_analyze] returns, in the order of the texts, one result
    per text, so as many results as texts; the result at position [i]
    has the sentiment, score, confidence and scores of
    [analyze_sentiment] on the text at position [i], and its keywords
    are those of [extract_keywords] on that text with the default bound
    10.  An empty string among the texts gives its own neutral result
    with confidence 0.0 and no keywords, and the results of the texts
    before and after it are those they have without it.  On the three
    texts "snabb leverans, snabb service", "" and "usel leverans" the
    results are positive, neutral and negative, each with its own
    keywords. *)
Theorem batch_analyze_pointwise :
  (forall texts : list (option str),
     batch_analyze texts
     = map (fun text =>
              mkResult (sentiment (analyze_sentiment text))
                (score (analyze_sentiment text))
                (confidence (analyze_sentiment text))
                (scores (analyze_sentiment text))
                (Some (extract_keywords text 10)))
         texts
     /\ length (batch_analyze texts) = length texts
     /\ (forall (i : nat) (text : option str),
           nth_error texts i = Some text ->
           exists r : result,
             nth_error (batch_analyze texts) i = Some r
             /\ sentiment r = sentiment (analyze_sentiment text)
             /\ score r = score (analyze_sentiment text)
             /\ confidence r = confidence (analyze_sentiment text)
             /\ scores r = scores (analyze_sentiment text)
             /\ keywords r = Some (extract_keywords text 10))
     /\ (forall before after : list (option str),
           texts = before ++ Some [] :: after ->
           batch_analyze texts
           = batch_analyze before
             ++ mkResult neutral 0.5%py 0.0%py [] (Some [])
                :: batch_analyze after))
  /\ batch_analyze (ucd := latin1)
       [Some (u "snabb leverans, snabb service"); Some [];
        Some (u "usel leverans")]
     = [mkResult positive 1.0%py 0.5%py
          [("positive", PyFloat 2.0%py); ("negative", PyInt 0);
           ("word_count", PyInt 2)]%string
          (Some [u "snabb"; u "leverans"; u "service"]);
        mkResult neutral 0.5%py 0.0%py [] (Some []);
        mkResult negative 0.0%py 0.5%py
          [("positive", PyInt 0); ("negative", PyFloat 1.0%py);
           ("word_count", PyInt 1)]%string
          (Some [u "usel"; u "leverans"])].
Proof.
  assert (Hmap : forall texts,
            batch_analyze texts
            = map (fun text =>
                     mkResult (sentiment (analyze_sentiment text))
                       (score (analyze_sentiment text))
                       (confidence (analyze_sentiment text))
                       (scores (analyze_sentiment text))
                       (Some (extract_keywords text 10)))
                texts).
  { intros texts. unfold batch_analyze.
    rewrite (fold_left_append
               (fun text =>
                  set_keywords (analyze_sentiment text)
                    (extract_keywords text default_max_keywords))).
    reflexivity. }
  split; [| vm_compute; reflexivity].
  intros texts. split; [apply Hmap |]. split; [| split].
  - rewrite Hmap. apply length_map.
  - intros i text Hi. eexists.
    split; [rewrite Hmap, nth_error_map, Hi; reflexivity |].
    cbn [sentiment score confidence scores keywords]. repeat split.
  - intros before after ->. rewrite !Hmap, map_app. reflexivity.
Qed.

End KeywordProperties.

(** C6, as stated, fails for a negative [max_keywords]: the slice
    [[:-1]] drops the last of the two keywords and keeps one, which is
    more than [-1]. *)
Lemma extract_keywords_negative_bound :
  extract_keywords (ucd := latin1) (Some (u "hello world")) (-1) = [u "hello"]
  /\ ~ (Z.of_nat
          (length (extract_keywords (ucd := latin1)
                     (Some (u "hello world")) (-1))) <= -1)%Z.
Proof. split; [vm_compute; reflexivity | vm_compute; intros H; apply H; reflexivity]. Qed.

Lemma extract_keywords_filtered_sorted_bounded_witness :
  (Z.of_nat
     (length (extract_keywords (ucd := latin1)
                (Some (u "Snabb leverans, snabb service! Leverans igen."))
                2)) <= 2)%Z.
Proof.
  apply (@extract_keywords_filtered_sorted_bounded latin1
           (u "Snabb leverans, snabb service! Leverans igen.") 2).
  lia.
Defined.

Lemma batch_analyze_pointwise_witness :
  exists r : result,
    nth_error (batch_analyze (ucd := latin1)
                 [Some (u "mycket bra service"); Some []; Some (u "usel")])
              2
    = Some r
    /\ sentiment r = sentiment (analyze_sentiment (ucd := latin1)
                                 (Some (u "usel")))
    /\ score r = score (analyze_sentiment (ucd := latin1) (Some (u "usel")))
    /\ confidence r
       = confidence (analyze_sentiment (ucd := latin1) (Some (u "usel")))
    /\ scores r = scores (analyze_sentiment (ucd := latin1) (Some (u "usel")))
    /\ keywords r
       = Some (extract_keywords (ucd := latin1) (Some (u "usel")) 10).
Proof.
  destruct (proj1 (@batch_analyze_pointwise latin1)
              [Some (u "mycket bra service"); Some []; Some (u "usel")])
    as [_ [_ [H1 _]]].
  apply (H1 2%nat (Some (u "usel"))). reflexivity.
Defined.

(* ================================================================= *)
(** * Further properties of [analyze_sentiment] *)

Section AnalyzerBehaviour.

Context {ucd : UnicodeData}.

Local Open Scope Z_scope.

(** A float that is zero or greater than zero. *)
Lemma binary_round_aux_not_negative (m e : Z) (l : location) :
  fltb (binary_round_aux prec emax false m e l) 0.0%py = false.
Proof.
  unfold binary_round_aux.
  destruct (shr_fexp prec emax m e l) as [r1 e1].
  destruct (shr_fexp prec emax _ e1 loc_Exact) as [r2 e2].
  destruct (shr_m r2); [reflexivity | | reflexivity].
  destruct (e2 <=? emax - prec); reflexivity.
Qed.

Lemma fdiv_not_negative (x y : float) :
  x = 0.0%py \/ is_positive x = true ->
  is_positive y = true ->
  fltb (fdiv x y) 0.0%py = false.
Proof.
  intros Hx Hy.
  destruct y as [sy | sy | | sy my ey]; try discriminate;
    destruct sy; try discriminate;
    (destruct Hx as [-> | Hx]; [reflexivity |]);
    destruct x as [sx | sx | | sx mx ex]; try discriminate;
    destruct sx; try discriminate; try reflexivity.
  unfold fdiv, SFdiv.
  destruct (SFdiv_core_binary prec emax (Z.pos mx) ex (Z.pos my) ey)
    as [[mz ez] lz].
  apply binary_round_aux_not_negative.
Qed.

Lemma acc_ok_to_float (a : num) :
  acc_ok a = true -> to_float a = 0.0%py \/ is_positive (to_float a) = true.
Proof.
  destruct a as [z | f]; cbn [acc_ok to_float].
  - intros H. apply Z.eqb_eq in H. subst z. left. reflexivity.
  - intros H. right. exact H.
Qed.

(** The three shapes of what [analyze_sentiment] returns. *)
Lemma analyze_sentiment_cases (text : option str) :
  analyze_sentiment text = fallback 0.0%py
  \/ analyze_sentiment text = fallback 0.1%py
  \/ analyze_sentiment text
     = mkResult neutral 0.5%py 0.2%py
         [("positive", PyInt 0); ("negative", PyInt 0);
          ("word_count", PyInt 0)]%string None
  \/ exists (s : str) (f : float),
       text = Some s
       /\ (3 <= length (lower (preprocess_text s)))%nat
       /\ 0 < word_count (scan (split (lower (preprocess_text s))))
       /\ py_add
            (positive_score (scan (split (lower (preprocess_text s)))))
            (negative_score (scan (split (lower (preprocess_text s)))))
          = PyFloat f
       /\ is_positive f = true
       /\ analyze_sentiment text
          = let words := split (lower (preprocess_text s)) in
            let st := scan words in
            let sc := fdiv (to_float (positive_score st)) f in
            mkResult (classify sc) sc
              (py_min (fdiv (Z2SF (word_count st))
                         (Z2SF (Z.of_nat (length words)))) 1.0%py)
              [("positive", positive_score st);
               ("negative", negative_score st);
               ("word_count", PyInt (word_count st))]%string None.
Proof.
  destruct text as [[| c t] |]; [left; reflexivity | | left; reflexivity].
  set (s := c :: t).
  rewrite (analyze_sentiment_body s) by discriminate.
  destruct (length (lower (preprocess_text s)) <? 3)%nat eqn:Elen.
  { right. left. unfold analyze_body. rewrite Elen. reflexivity. }
  apply Nat.ltb_ge in Elen.
  destruct (scan_spec (split (lower (preprocess_text s)))) as [[_ _ Hc _] _].
  destruct (word_count (scan (split (lower (preprocess_text s)))) =? 0)
    eqn:Ewc.
  { right. right. left. unfold analyze_body.
    apply Nat.ltb_ge in Elen. rewrite Elen, Ewc. reflexivity. }
  apply Z.eqb_neq in Ewc.
  assert (Hwc : 0 < word_count (scan (split (lower (preprocess_text s)))))
    by lia.
  right. right. right.
  destruct (scan_total_positive _ Hwc) as [f [Hf Hpos]].
  destruct (analyze_body_matched s Elen Hwc) as [sc [q [Hs [Hq Hbody]]]].
  exists s, f. repeat (split; [assumption || reflexivity |]).
  rewrite Hbody. cbn zeta.
  rewrite Hf in Hs. unfold py_truediv in Hs, Hq.
  assert (Hs' : sc = fdiv (to_float (positive_score
                  (scan (split (lower (preprocess_text s)))))) f).
  { destruct (positive_score _); cbn [to_float] in Hs |- *;
      rewrite (positive_not_zero f Hpos) in Hs; congruence. }
  destruct (Z.of_nat (length (split (lower (preprocess_text s)))) =? 0);
    [discriminate |].
  injection Hq as <-. rewrite Hs'. reflexivity.
Qed.

(** X1: the [try] block of [analyze_sentiment] raises on no string:
    neither division has a zero divisor, so the result is never that of
    the [except] handler. *)
Theorem analyze_body_never_raises :
  forall text : str,
    exists r, analyze_body text = Some r
              /\ (text <> [] -> analyze_sentiment (Some text) = r).
Proof.
  intros text.
  assert (H : exists r, analyze_body text = Some r).
  { unfold analyze_body.
    destruct (length (lower (preprocess_text text)) <? 3)%nat eqn:Elen;
      [eexists; reflexivity |].
    destruct (word_count (scan (split (lower (preprocess_text text)))) =? 0)
      eqn:Ewc; [eexists; reflexivity |].
    apply Nat.ltb_ge in Elen. apply Z.eqb_neq in Ewc.
    destruct (scan_spec (split (lower (preprocess_text text))))
      as [[_ _ Hc _] _].
    destruct (analyze_body_matched text Elen) as [s [q [_ [_ Hb]]]]; [lia |].
    unfold analyze_body in Hb. apply Nat.ltb_ge in Elen.
    apply Z.eqb_neq in Ewc. rewrite Elen, Ewc in Hb.
    eexists. exact Hb. }
  destruct H as [r Hr]. exists r. split; [exact Hr |].
  intros Hne. rewrite (analyze_sentiment_body text Hne), Hr. reflexivity.
Qed.

(** X2: for every input the confidence is not above 1.0, neither the
    score nor the confidence is below 0.0, and the scan counts at most
    as many words as there are tokens. *)
Theorem analyze_result_bounds :
  (forall text : option str,
     let r := analyze_sentiment text in
     fltb 1.0%py (confidence r) = false
     /\ fltb (confidence r) 0.0%py = false
     /\ fltb (score r) 0.0%py = false)
  /\ (forall words : list str,
        0 <= word_count (scan words) <= Z.of_nat (length words)).
Proof.
  split.
  - intros text r. subst r.
    destruct (analyze_sentiment_cases text)
      as [-> | [-> | [-> | [s [f [_ [_ [Hwc [Hf [Hpos ->]]]]]]]]]];
      try (repeat split; reflexivity).
    cbn zeta. cbn [confidence score].
    destruct (scan_spec (split (lower (preprocess_text s))))
      as [[Hp _ _ _] Hcount].
    set (words := split (lower (preprocess_text s))) in *.
    assert (Hq : fltb (fdiv (Z2SF (word_count (scan words)))
                         (Z2SF (Z.of_nat (length words)))) 0.0%py = false).
    { pose proof (filter_length_le is_sentiment_word words) as Hle.
      destruct (word_count (scan words)) as [| wc | wc]; try lia.
      destruct (Z.of_nat (length words)) as [| n | n] eqn:En; try lia.
      apply fdiv_not_negative; [right |]; reflexivity. }
    repeat split.
    + unfold py_min.
      destruct (fltb 1.0%py (fdiv _ _)) eqn:E; [reflexivity | exact E].
    + unfold py_min.
      destruct (fltb 1.0%py (fdiv _ _)) eqn:E; [reflexivity | exact Hq].
    + apply fdiv_not_negative; [apply acc_ok_to_float, Hp | exact Hpos].
  - intros words. destruct (scan_spec words) as [_ ->].
    pose proof (filter_length_le is_sentiment_word words). lia.
Qed.

Lemma fdiv_zero_positive (f : float) :
  is_positive f = true -> fdiv (float_of_int 0) f = 0.0%py.
Proof.
  destruct f as [s | s | | s m e]; try discriminate;
    destruct s; try discriminate; reflexivity.
Qed.

Lemma step_keeps_positive_zero (words : list str) (st : totals) (i : nat)
  (w : str) :
  (is_sentiment_word w = true -> negated_at words i = mem w positive_words) ->
  positive_score st = PyInt 0 ->
  positive_score (step words st (i, w)) = PyInt 0.
Proof.
  unfold step, is_sentiment_word. intros H Hp.
  destruct (mem w positive_words); cbn [orb] in H.
  - rewrite (H eq_refl). exact Hp.
  - destruct (mem w negative_words); [| exact Hp].
    rewrite (H eq_refl). exact Hp.
Qed.

Lemma fold_keeps_positive_zero (words : list str) :
  (forall i w, nth_error words i = Some w -> is_sentiment_word w = true ->
               negated_at words i = mem w positive_words) ->
  forall (l : list str) (k : nat) (st : totals),
    (forall j w, nth_error l j = Some w -> nth_error words (k + j) = Some w) ->
    positive_score st = PyInt 0 ->
    positive_score (fold_left (step words) (combine (seq k (length l)) l) st)
    = PyInt 0.
Proof.
  intros H. induction l as [| w l IH]; intros k st Hl Hp;
    cbn [length seq combine fold_left]; [exact Hp |].
  apply IH.
  - intros j x Hj. replace (S k + j)%nat with (k + S j)%nat by lia.
    apply Hl. exact Hj.
  - apply step_keeps_positive_zero; [| exact Hp].
    apply H. replace k with (k + 0)%nat by lia. apply Hl. reflexivity.
Qed.

(** X3: when every matched word lands on the negative side (each
    positive word is negated, no negative word is), positive_score
    stays the integer 0, the score is exactly 0.0 and the sentiment is
    negative. *)
Theorem negative_only_scores_zero :
  forall text : str,
    let words := split (lower (preprocess_text text)) in
    let r := analyze_sentiment (Some text) in
    (3 <= length (lower (preprocess_text text)))%nat ->
    (exists w, In w words /\ is_sentiment_word w = true) ->
    (forall i w, nth_error words i = Some w -> is_sentiment_word w = true ->
                 negated_at words i = mem w positive_words) ->
    positive_score (scan words) = PyInt 0
    /\ score r = 0.0%py
    /\ sentiment r = negative.
Proof.
  intros text words r Hlen [w [Hin Hw]] Hneg.
  assert (Hp : positive_score (scan words) = PyInt 0).
  { unfold scan, enumerate.
    apply (fold_keeps_positive_zero words Hneg words 0%nat);
      [intros j x Hj; exact Hj | reflexivity]. }
  destruct (scan_spec words) as [_ Hcount].
  assert (Hwc : 0 < word_count (scan words)).
  { rewrite Hcount. pose proof (filter_nonempty _ _ _ Hin Hw). lia. }
  destruct (scan_total_positive words Hwc) as [f [Hf Hpos]].
  destruct (analyze_body_matched text Hlen Hwc) as [s [q [Hs [_ Hbody]]]].
  fold words in Hs, Hbody.
  rewrite Hf, Hp in Hs. unfold py_truediv in Hs. cbn [to_float] in Hs.
  rewrite (positive_not_zero f Hpos), (fdiv_zero_positive f Hpos) in Hs.
  injection Hs as <-.
  split; [exact Hp |]. subst r.
  rewrite (analyze_sentiment_body text (cleaned_nonempty text Hlen)), Hbody.
  split; reflexivity.
Qed.

(** ** Whitespace around the text *)

Lemma drop_while_all (p : codepoint -> bool) (s : str) :
  forallb p s = true -> drop_while p s = [].
Proof.
  induction s as [| c s IH]; cbn [forallb drop_while]; [reflexivity |].
  intros H. apply andb_true_iff in H. destruct H as [-> H]. apply IH, H.
Qed.

Lemma drop_while_nil_all (p : codepoint -> bool) (s : str) :
  drop_while p s = [] -> forallb p s = true.
Proof.
  induction s as [| c s IH]; cbn [forallb drop_while]; [reflexivity |].
  destruct (p c); [exact IH | discriminate].
Qed.

Lemma drop_while_app_all (p : codepoint -> bool) (ws s : str) :
  forallb p ws = true -> drop_while p (ws ++ s) = drop_while p s.
Proof.
  induction ws as [| c ws IH]; cbn [forallb drop_while app]; [reflexivity |].
  intros H. apply andb_true_iff in H. destruct H as [-> H]. apply IH, H.
Qed.

Lemma drop_while_app_keep (p : codepoint -> bool) (s t : str) :
  drop_while p s <> [] -> drop_while p (s ++ t) = drop_while p s ++ t.
Proof.
  induction s as [| c s IH]; cbn [drop_while app]; [congruence |].
  destruct (p c); [exact IH | reflexivity].
Qed.

Lemma forallb_rev (p : codepoint -> bool) (s : str) :
  forallb p s = true -> forallb p (rev s) = true.
Proof.
  rewrite !forallb_forall. intros H x Hx. apply H, in_rev, Hx.
Qed.

Lemma strip_padding (ws1 ws2 core : str) :
  forallb isspace ws1 = true -> forallb isspace ws2 = true ->
  strip (ws1 ++ core ++ ws2) = strip core.
Proof.
  intros H1 H2. unfold strip. rewrite (drop_while_app_all _ _ _ H1).
  destruct (drop_while isspace core) as [| c d] eqn:E.
  - rewrite (drop_while_all isspace (core ++ ws2)); [reflexivity |].
    rewrite forallb_app, (drop_while_nil_all _ _ E), H2. reflexivity.
  - rewrite drop_while_app_keep by congruence. rewrite E.
    rewrite rev_app_distr.
    rewrite (drop_while_app_all _ _ _ (forallb_rev _ _ H2)). reflexivity.
Qed.

Lemma analyze_sentiment_strip (a b : str) :
  a <> [] -> b <> [] -> strip a = strip b ->
  analyze_sentiment (Some a) = analyze_sentiment (Some b).
Proof.
  intros Ha Hb H.
  rewrite (analyze_sentiment_body a Ha), (analyze_sentiment_body b Hb).
  assert (Hp : preprocess_text a = preprocess_text b).
  { destruct a; [congruence |]. destruct b; [congruence |].
    unfold preprocess_text. rewrite H. reflexivity. }
  unfold analyze_body. rewrite Hp. reflexivity.
Qed.

(** X4: whitespace before and after a non-empty text does not change
    the result of [analyze_sentiment]. *)
Theorem analyze_ignores_padding :
  forall ws1 ws2 core : str,
    forallb isspace ws1 = true -> forallb isspace ws2 = true ->
    core <> [] ->
    analyze_sentiment (Some (ws1 ++ core ++ ws2))
    = analyze_sentiment (Some core).
Proof.
  intros ws1 ws2 core H1 H2 Hc.
  apply analyze_sentiment_strip; [| exact Hc | apply strip_padding; assumption].
  intros H. apply app_eq_nil in H. destruct H as [_ H].
  apply app_eq_nil in H. destruct H as [H _]. exact (Hc H).
Qed.

(** X5: a text that is not empty but holds whitespace only is not
    treated as empty input (confidence 0.0): it is stripped to nothing
    and returned as too short, with confidence 0.1. *)
Theorem whitespace_only_too_short :
  forall text : str,
    text <> [] -> forallb isspace text = true ->
    analyze_sentiment (Some text) = mkResult neutral 0.5%py 0.1%py [] None.
Proof.
  intros text Hne Hws. rewrite (analyze_sentiment_body text Hne).
  assert (Hp : preprocess_text text = []).
  { destruct text; [congruence |]. unfold preprocess_text.
    unfold strip. rewrite (drop_while_all _ _ Hws). reflexivity. }
  unfold analyze_body. rewrite Hp, lower_nil. reflexivity.
Qed.

(** ** What [preprocess_text] leaves *)

Lemma re_sub_delete_Forall (P : codepoint -> Prop) (m : str -> option nat) :
  forall (s : str) (k : nat),
    Forall P s -> Forall P (re_sub_from m [] k s).
Proof.
  induction s as [| c s IH]; intros k H; cbn [re_sub_from]; [constructor |].
  inversion H; subst. destruct k; [| apply IH; assumption].
  destruct (m (c :: s)) as [[| n] |]; cbn [app];
    try (constructor; [assumption |]); apply IH; assumption.
Qed.

Lemma collapse_spaces_Forall : forall (s : str) (k : nat),
  Forall (fun c => isspace c = true -> c = 32%N)
    (re_sub_from match_spaces (u " ") k s).
Proof.
  induction s as [| c s IH]; intros k; cbn [re_sub_from]; [constructor |].
  destruct k; [| apply IH].
  unfold match_spaces. cbn [take_while].
  destruct (isspace c) eqn:E; cbn [length].
  - change (u " ") with [32%N]. cbn [app].
    constructor; [reflexivity | apply IH].
  - constructor; [congruence | apply IH].
Qed.

(** X6: the only whitespace character left in the text that
    [preprocess_text] returns is the space U+0020. *)
Theorem preprocess_text_only_spaces :
  forall text : str,
    Forall (fun c => isspace c = true -> c = 32%N) (preprocess_text text).
Proof.
  intros [| c t]; [constructor |]. unfold preprocess_text, re_sub.
  apply re_sub_delete_Forall, re_sub_delete_Forall, collapse_spaces_Forall.
Qed.

(** ** Email addresses *)

Lemma take_while_drop_while (p : codepoint -> bool) (s : str) :
  take_while p s ++ drop_while p s = s.
Proof.
  induction s as [| c s IH]; cbn [take_while drop_while]; [reflexivity |].
  destruct (p c); cbn [app]; [rewrite IH |]; reflexivity.
Qed.

Lemma take_while_forallb (p : codepoint -> bool) (s : str) :
  forallb p (take_while p s) = true.
Proof.
  induction s as [| c s IH]; cbn [take_while]; [reflexivity |].
  destruct (p c) eqn:E; cbn [forallb]; [rewrite E, IH |]; reflexivity.
Qed.

Lemma drop_while_length (p : codepoint -> bool) (s : str) :
  (length (drop_while p s) <= length s)%nat.
Proof.
  induction s as [| c s IH]; cbn [drop_while length]; [lia |].
  destruct (p c); cbn [length]; lia.
Qed.

(** After a run of non-space characters comes a space or the end. *)
Lemma drop_while_nonspace_hd (s : str) :
  isspace (hd 32%N (drop_while (fun c => negb (isspace c)) s)) = true.
Proof.
  induction s as [| c s IH]; cbn [drop_while]; [reflexivity |].
  destruct (isspace c) eqn:E; cbn [negb hd]; [exact E | exact IH].
Qed.

Lemma take_while_run (t rest : str) :
  forallb (fun c => negb (isspace c)) t = true ->
  isspace (hd 32%N rest) = true ->
  take_while (fun c => negb (isspace c)) (t ++ rest) = t.
Proof.
  intros Ht Hr. induction t as [| c t IH]; cbn [app take_while].
  - destruct rest as [| c r]; [reflexivity |]. cbn [hd] in Hr.
    cbn [take_while]. rewrite Hr. reflexivity.
  - cbn [forallb] in Ht. apply andb_true_iff in Ht. destruct Ht as [-> Ht].
    rewrite (IH Ht). reflexivity.
Qed.

Lemma take_while_self (t : str) :
  forallb (fun c => negb (isspace c)) t = true ->
  take_while (fun c => negb (isspace c)) t = t.
Proof.
  intros Ht. pose proof (take_while_run t [] Ht eq_refl) as H.
  rewrite app_nil_r in H. exact H.
Qed.

Lemma match_email_run (t rest : str) :
  forallb (fun c => negb (isspace c)) t = true ->
  isspace (hd 32%N rest) = true ->
  match_email (t ++ rest) = match_email t.
Proof.
  intros Ht Hr. unfold match_email.
  rewrite (take_while_run t rest Ht Hr), (take_while_self t Ht). reflexivity.
Qed.

Lemma existsb_removelast_tail {A : Type} (f : A -> bool) (x : A)
  (l : list A) :
  existsb f (removelast (x :: l)) = false -> existsb f (removelast l) = false.
Proof.
  destruct l as [| y l]; [reflexivity |].
  change (removelast (x :: y :: l)) with (x :: removelast (y :: l)).
  cbn [existsb]. intros H. apply orb_false_iff in H. apply H.
Qed.

Lemma match_email_tail (c : codepoint) (t : str) :
  forallb (fun c => negb (isspace c)) (c :: t) = true ->
  match_email (c :: t) = None -> match_email t = None.
Proof.
  intros Ht. pose proof Ht as Ht'. cbn [forallb] in Ht'.
  apply andb_true_iff in Ht'. destruct Ht' as [_ Ht'].
  unfold match_email.
  rewrite (take_while_self (c :: t) Ht), (take_while_self t Ht').
  match goal with
  | |- context [existsb ?f (removelast t)] =>
      destruct (existsb f (removelast t)) eqn:E; [discriminate |]; intros _;
      destruct t as [| c1 t1]; [reflexivity |]; cbv beta iota;
      pose proof (existsb_removelast_tail f c1 t1 E) as E';
      match goal with
      | |- context [existsb ?g (removelast t1)] =>
          destruct (existsb g (removelast t1)) eqn:E2; [| reflexivity];
          exfalso; exact (diff_true_false (eq_trans (eq_sym E2) E'))
      end
  end.
Qed.

Lemma re_sub_from_skip (m : str -> option nat) (repl a b : str) :
  re_sub_from m repl (length a) (a ++ b) = re_sub_from m repl 0 b.
Proof.
  induction a as [| c a IH]; cbn [length app]; [reflexivity |].
  cbn [re_sub_from]. exact IH.
Qed.

Lemma email_sub_space (c : codepoint) (s : str) :
  isspace c = true ->
  re_sub_from match_email [] 0 (c :: s)
  = c :: re_sub_from match_email [] 0 s.
Proof.
  intros Hc. cbn [re_sub_from]. unfold match_email at 1.
  cbn [take_while]. rewrite Hc. reflexivity.
Qed.

Lemma email_sub_hd (rest : str) :
  isspace (hd 32%N rest) = true ->
  isspace (hd 32%N (re_sub_from match_email [] 0 rest)) = true.
Proof.
  destruct rest as [| c r]; [trivial |]. cbn [hd]. intros Hc.
  rewrite (email_sub_space c r Hc). exact Hc.
Qed.

(** A run without an [@] inside is kept whole. *)
Lemma email_sub_kept (t rest : str) :
  forallb (fun c => negb (isspace c)) t = true ->
  isspace (hd 32%N rest) = true ->
  match_email t = None ->
  re_sub_from match_email [] 0 (t ++ rest)
  = t ++ re_sub_from match_email [] 0 rest.
Proof.
  intros Ht Hr. induction t as [| c t IH]; intros Hm; [reflexivity |].
  cbn [app re_sub_from].
  change (c :: t ++ rest) with ((c :: t) ++ rest).
  rewrite (match_email_run (c :: t) rest Ht Hr), Hm.
  f_equal. pose proof (match_email_tail c t Ht Hm) as Hm'.
  cbn [forallb] in Ht. apply andb_true_iff in Ht. destruct Ht as [_ Ht].
  apply IH; assumption.
Qed.

(** A run with an [@] inside is deleted whole. *)
Lemma email_sub_deleted (t rest : str) (n : nat) :
  forallb (fun c => negb (isspace c)) t = true ->
  isspace (hd 32%N rest) = true ->
  match_email t = Some n ->
  re_sub_from match_email [] 0 (t ++ rest)
  = re_sub_from match_email [] 0 rest.
Proof.
  intros Ht Hr Hm. destruct t as [| c t]; [discriminate |].
  cbn [app re_sub_from].
  change (c :: t ++ rest) with ((c :: t) ++ rest).
  rewrite (match_email_run (c :: t) rest Ht Hr), Hm.
  unfold match_email in Hm.
  rewrite (take_while_self (c :: t) Ht) in Hm.
  match type of Hm with
  | context [existsb ?f (removelast t)] =>
      destruct (existsb f (removelast t)); [| discriminate]
  end.
  injection Hm as <-. cbn [app]. apply re_sub_from_skip.
Qed.

Lemma split_from_run (t : str) : forall cur rest : str,
  forallb (fun c => negb (isspace c)) t = true ->
  split_from cur (t ++ rest) = split_from (rev t ++ cur) rest.
Proof.
  induction t as [| c t IH]; intros cur rest Ht; [reflexivity |].
  cbn [forallb] in Ht. apply andb_true_iff in Ht. destruct Ht as [Hc Ht].
  apply negb_true_iff in Hc. cbn [app split_from rev]. rewrite Hc.
  rewrite (IH _ _ Ht), <- app_assoc. reflexivity.
Qed.

(** A run followed by a space or the end is one token. *)
Lemma split_run (t rest : str) :
  t <> [] ->
  forallb (fun c => negb (isspace c)) t = true ->
  isspace (hd 32%N rest) = true ->
  split (t ++ rest) = t :: split rest.
Proof.
  intros Hne Ht Hr. unfold split. rewrite (split_from_run t [] rest Ht).
  rewrite app_nil_r.
  destruct (rev t) as [| x cur] eqn:E.
  - exfalso. apply Hne. rewrite <- (rev_involutive t), E. reflexivity.
  - rewrite <- E. destruct rest as [| c r]; cbn [split_from].
    + rewrite E, <- E, rev_involutive. reflexivity.
    + cbn [hd] in Hr. rewrite Hr, E, <- E, rev_involutive. reflexivity.
Qed.

Lemma email_sub_tokens : forall (n : nat) (s : str),
  (length s <= n)%nat ->
  Forall (fun w => match_email w = None)
    (split (re_sub_from match_email [] 0 s)).
Proof.
  induction n as [| n IH]; intros s Hn.
  - destruct s; [constructor | cbn in Hn; lia].
  - destruct s as [| c s]; [constructor |].
    destruct (isspace c) eqn:Ec.
    + rewrite (email_sub_space c s Ec). unfold split. cbn [split_from].
      rewrite Ec. apply IH. cbn in Hn. lia.
    + pose proof (take_while_drop_while (fun c => negb (isspace c)) (c :: s))
        as Hs.
      pose proof (take_while_forallb (fun c => negb (isspace c)) (c :: s))
        as Ht.
      pose proof (drop_while_nonspace_hd (c :: s)) as Hr.
      assert (Hlen : (length (drop_while (fun c => negb (isspace c)) (c :: s))
                      <= n)%nat).
      { cbn [drop_while]. rewrite Ec. cbn [negb].
        pose proof (drop_while_length (fun c => negb (isspace c)) s).
        cbn in Hn. lia. }
      assert (Hne : take_while (fun c => negb (isspace c)) (c :: s) <> []).
      { cbn [take_while]. rewrite Ec. discriminate. }
      rewrite <- Hs.
      destruct (match_email (take_while (fun c => negb (isspace c)) (c :: s)))
        as [k |] eqn:Em.
      * rewrite (email_sub_deleted _ _ k Ht Hr Em). apply IH, Hlen.
      * rewrite (email_sub_kept _ _ Ht Hr Em).
        rewrite (split_run _ _ Hne Ht (email_sub_hd _ Hr)).
        constructor; [exact Em | apply IH, Hlen].
Qed.

(** X7: no token of the text that [preprocess_text] returns has an [@]
    with characters on both sides: the pattern of an email address
    matches none of them. *)
Theorem preprocess_text_no_email :
  forall text : str,
    Forall (fun w => match_email w = None) (split (preprocess_text text)).
Proof.
  intros [| c t]; [constructor |]. unfold preprocess_text, re_sub.
  eapply email_sub_tokens. reflexivity.
Qed.

End AnalyzerBehaviour.

(* ================================================================= *)
(** * Further properties of [extract_keywords] *)

Section KeywordBehaviour.

Context {ucd : UnicodeData}.

Lemma In_insert_by_freq (x y : str * Z) (l : list (str * Z)) :
  In y (x :: l) -> In y (insert_by_freq x l).
Proof.
  induction l as [| z l IH]; cbn [insert_by_freq]; [trivial |].
  destruct (snd x <? snd z)%Z; [| trivial].
  intros [H | [H | H]].
  - right. apply IH. left. exact H.
  - left. exact H.
  - right. apply IH. right. exact H.
Qed.

Lemma In_sorted_by_freq (y : str * Z) (l : list (str * Z)) :
  In y l -> In y (sorted_by_freq l).
Proof.
  induction l as [| x l IH]; cbn [sorted_by_freq]; [trivial |].
  intros [H | H]; apply In_insert_by_freq;
    [left; exact H | right; apply IH, H].
Qed.

Lemma slice_to_nonneg {A : Type} (l : list A) (stop : Z) :
  (0 <= stop)%Z -> slice_to l stop = firstn (Z.to_nat stop) l.
Proof.
  intros H. unfold slice_to.
  destruct (stop <? 0)%Z eqn:E; [apply Z.ltb_lt in E; lia | reflexivity].
Qed.

(** X8: when [extract_keywords] returns fewer than [max_keywords]
    words it has left none out: every token of the cleaned text that is
    longer than three characters and no stop word is among them. *)
Theorem extract_keywords_complete :
  forall (text : str) (max_keywords : Z) (w : str),
    (0 <= max_keywords)%Z ->
    (Z.of_nat (length (extract_keywords (Some text) max_keywords))
     < max_keywords)%Z ->
    In w (keyword_tokens text) -> is_keyword w = true ->
    In w (extract_keywords (Some text) max_keywords).
Proof.
  intros text k w Hk Hlen Hw Hkw.
  destruct (extract_keywords_unfold text k) as [E | [-> _]].
  - rewrite E in Hlen |- *. rewrite slice_to_nonneg in Hlen |- * by exact Hk.
    set (items := sorted_by_freq
                    (fold_left count_word
                       (filter is_keyword (keyword_tokens text)) [])) in *.
    rewrite length_map in Hlen.
    assert (Hall : firstn (Z.to_nat k) items = items).
    { apply firstn_all2.
      destruct (Nat.le_gt_cases (length items) (Z.to_nat k)) as [H | H];
        [exact H |].
      rewrite firstn_length_le in Hlen by lia. lia. }
    rewrite Hall. subst items.
    destruct (word_freq_inv (filter is_keyword (keyword_tokens text)))
      as [_ [_ Hkeys]].
    assert (Hin : In w (map fst
                     (fold_left count_word
                        (filter is_keyword (keyword_tokens text)) [])))
      by (apply Hkeys, filter_In; auto).
    apply in_map_iff in Hin. destruct Hin as [x [<- Hx]].
    apply in_map, In_sorted_by_freq, Hx.
  - unfold keyword_tokens, re_sub in Hw. rewrite lower_nil in Hw.
    contradiction.
Qed.

(** X9: the keywords for a smaller [max_keywords] are the first ones of
    the keywords for a larger one. *)
Theorem extract_keywords_prefix :
  forall (text : option str) (k k' : Z),
    (0 <= k <= k')%Z ->
    extract_keywords text k
    = firstn (Z.to_nat k) (extract_keywords text k').
Proof.
  intros [[| c t] |] k k' Hk; cbn [extract_keywords];
    try (rewrite firstn_nil; reflexivity).
  rewrite !slice_to_nonneg by lia.
  rewrite <- firstn_map, <- firstn_map, firstn_firstn.
  replace (Nat.min (Z.to_nat k) (Z.to_nat k')) with (Z.to_nat k) by lia.
  reflexivity.
Qed.

End KeywordBehaviour.

(* ================================================================= *)
(** * Properties of [utils.py] *)

Import Utils.

Section UtilsProperties.

Context {ucd : UnicodeData}.
Variable datetime : Type.
Variable now : nat -> datetime.

Lemma image_extension_allowed (w : str) :
  mem w IMAGE_EXTENSIONS = true -> mem w ALLOWED_EXTENSIONS = true.
Proof.
  intros H. apply mem_In in H.
  assert (A : Forall (fun x => mem x ALLOWED_EXTENSIONS = true)
                IMAGE_EXTENSIONS)
    by (vm_compute; repeat constructor).
  rewrite Forall_forall in A. apply A, H.
Qed.

(** X10: every file name that [is_image_file] accepts is accepted by
    [allowed_file]. *)
Theorem image_file_is_allowed :
  forall filename : str,
    is_image_file (Some filename) = true -> allowed_file filename = true.
Proof.
  intros [| c s]; [discriminate |]. unfold is_image_file, allowed_file.
  intros H. apply andb_true_iff in H. destruct H as [-> H].
  apply image_extension_allowed, H.
Qed.

Lemma take_while_app_stop (p : codepoint -> bool) (a b : str) (c : codepoint) :
  forallb p a = true -> p c = false -> take_while p (a ++ c :: b) = a.
Proof.
  intros Ha Hc. induction a as [| x a IH]; cbn [app take_while].
  - rewrite Hc. reflexivity.
  - cbn [forallb] in Ha. apply andb_true_iff in Ha. destruct Ha as [-> Ha].
    rewrite (IH Ha). reflexivity.
Qed.

Lemma has_char_forallb (c : codepoint) (s : str) :
  has_char c s = false -> forallb (fun x => negb (x =? c)%N) s = true.
Proof.
  unfold has_char. induction s as [| x s IH]; cbn [existsb forallb];
    [reflexivity |].
  intros H. apply orb_false_iff in H. destruct H as [-> H].
  cbn [negb andb]. apply IH, H.
Qed.

Lemma rsplit1_last (sep : codepoint) (name ext : str) :
  has_char sep ext = false ->
  rsplit1 sep (name ++ sep :: ext) = [name; ext].
Proof.
  intros H. apply has_char_forallb in H. unfold rsplit1.
  assert (Hrev : rev (name ++ sep :: ext) = rev ext ++ sep :: rev name).
  { rewrite rev_app_distr. cbn [rev]. rewrite <- app_assoc. reflexivity. }
  rewrite Hrev.
  rewrite (drop_while_app_all _ _ _ (forallb_rev _ _ H)).
  cbn [drop_while]. rewrite N.eqb_refl. cbn [negb].
  rewrite (take_while_app_stop _ _ _ _ (forallb_rev _ _ H))
    by (rewrite N.eqb_refl; reflexivity).
  rewrite !rev_involutive. reflexivity.
Qed.

Lemma has_char_app (c : codepoint) (a b : str) :
  has_char c (a ++ c :: b) = true.
Proof.
  unfold has_char. rewrite existsb_app. cbn [existsb].
  rewrite N.eqb_refl, orb_true_r. reflexivity.
Qed.

(** X11: only what follows the last dot of a file name counts: a name
    [name.ext] whose [ext] has no dot is allowed exactly when the
    lowercase [ext] is an allowed extension, whatever [name] is, and is
    an image file exactly when it is an image extension; a name without
    a dot is neither. *)
Theorem file_type_from_last_extension :
  (forall name ext : str,
     has_char (chr ".") ext = false ->
     allowed_file (name ++ chr "." :: ext)
     = mem (lower ext) ALLOWED_EXTENSIONS
     /\ is_image_file (Some (name ++ chr "." :: ext))
        = mem (lower ext) IMAGE_EXTENSIONS)
  /\ (forall filename : str,
        has_char (chr ".") filename = false ->
        allowed_file filename = false
        /\ is_image_file (Some filename) = false).
Proof.
  split.
  - intros name ext H. unfold allowed_file, is_image_file.
    destruct (name ++ chr "." :: ext) as [| c s] eqn:E;
      [destruct name; discriminate |].
    rewrite <- E, has_char_app, (rsplit1_last _ name ext H).
    split; reflexivity.
  - intros filename H. unfold allowed_file, is_image_file.
    destruct filename; [split; reflexivity |]. rewrite H. split; reflexivity.
Qed.

(** ** [parse_text_reviews] *)

Lemma drop_while_snoc_stop (p : codepoint -> bool) (l : str) (c : codepoint) :
  p c = false -> drop_while p (l ++ [c]) = drop_while p l ++ [c].
Proof.
  intros Hc. induction l as [| x l IH]; cbn [app drop_while].
  - rewrite Hc. reflexivity.
  - destruct (p x); [exact IH | reflexivity].
Qed.

Lemma drop_while_hd (p : codepoint -> bool) (s : str) (c : codepoint)
  (d : str) :
  drop_while p s = c :: d -> p c = false.
Proof.
  induction s as [| x s IH]; cbn [drop_while]; [discriminate |].
  destruct (p x) eqn:E; [exact IH | intros [= <- _]; exact E].
Qed.

(** A stripped text that is not empty starts with a character that is
    no whitespace. *)
Lemma strip_hd (s : str) :
  strip s <> [] -> isspace (hd 32%N (strip s)) = false.
Proof.
  unfold strip. destruct (drop_while isspace s) as [| c d] eqn:E;
    [intros H; exfalso; apply H; reflexivity |].
  intros _. pose proof (drop_while_hd _ _ _ _ E) as Hc.
  cbn [rev]. rewrite (drop_while_snoc_stop _ _ _ Hc).
  rewrite rev_app_distr. cbn [rev app hd]. exact Hc.
Qed.

Lemma parse_lines_spec : forall (lines : list str)
  (reviews : list (review_data datetime)),
  (length reviews <= 100)%nat -> Forall text_review_ok reviews ->
  (length (parse_lines now lines reviews) <= 100)%nat
  /\ Forall text_review_ok (parse_lines now lines reviews).
Proof.
  induction lines as [| line rest IH]; intros reviews Hlen Hok;
    cbn [parse_lines]; [auto |].
  cbn zeta.
  destruct (is_empty (strip line)) eqn:Ee; [apply IH; assumption |].
  destruct (length (strip line) <? 3)%nat eqn:E3; [apply IH; assumption |].
  destruct (startswith_any (lower (strip line)) header_prefixes);
    [apply IH; assumption |].
  destruct (100 <=? length reviews)%nat eqn:E100; [auto |].
  apply Nat.leb_gt in E100. apply Nat.ltb_ge in E3.
  assert (Hne : strip line <> []) by (destruct (strip line); discriminate).
  pose proof (strip_hd line Hne) as Hhd.
  apply IH.
  - rewrite length_app. cbn [length]. lia.
  - apply Forall_app. split; [exact Hok |]. constructor; [| constructor].
    unfold text_review_ok. cbn [review_text rating platform reviewer_name].
    destruct (5000 <? length (strip line))%nat eqn:E5.
    + apply Nat.ltb_lt in E5. rewrite firstn_length_le by lia.
      repeat split; try lia.
      destruct (strip line); [contradiction | exact Hhd].
    + apply Nat.ltb_ge in E5. repeat split; try lia. exact Hhd.
Qed.

(** X12: [parse_text_reviews] returns at most 100 reviews; the text of
    each has between 3 and 5000 characters and starts with a character
    that is no whitespace, its platform is "text_input" and it has no
    rating and no reviewer name; [None], the empty string and a text of
    whitespace only give no review. *)
Theorem parse_text_reviews_bounds :
  (forall text_input : option str,
     (length (parse_text_reviews now text_input) <= 100)%nat
     /\ Forall (fun r =>
                  (3 <= length (review_text r) <= 5000)%nat
                  /\ isspace (hd 32%N (review_text r)) = false
                  /\ rating r = None
                  /\ platform r = u "text_input"
                  /\ reviewer_name r = None)
          (parse_text_reviews now text_input))
  /\ parse_text_reviews now None = []
  /\ (forall t : str,
        forallb isspace t = true -> parse_text_reviews now (Some t) = []).
Proof.
  split; [| split; [reflexivity |]].
  - intros [t |]; [| split; [cbn; lia | constructor]].
    unfold parse_text_reviews.
    destruct (is_empty t || is_empty (strip t));
      [split; [cbn; lia | constructor] |].
    apply parse_lines_spec; [cbn; lia | constructor].
  - intros t Ht. unfold parse_text_reviews, strip.
    rewrite (drop_while_all _ _ Ht). cbn. rewrite orb_true_r. reflexivity.
Qed.

Lemma parse_lines_all_headers : forall lines : list str,
  Forall (fun line =>
            startswith_any (lower (strip line)) header_prefixes = true) lines ->
  parse_lines now lines [] = [].
Proof.
  induction 1 as [| line rest H _ IH]; cbn [parse_lines]; [reflexivity |].
  cbn zeta. rewrite H.
  destruct (is_empty (strip line)); [exact IH |].
  destruct (length (strip line) <? 3)%nat; exact IH.
Qed.

Lemma parse_lines_header (line : str) (rest : list str)
  (reviews : list (review_data datetime)) :
  startswith_any (lower (strip line)) header_prefixes = true ->
  parse_lines now (line :: rest) reviews = parse_lines now rest reviews.
Proof.
  intros H. cbn [parse_lines]. cbn zeta. rewrite H.
  destruct (is_empty (strip line)); [reflexivity |].
  destruct (length (strip line) <? 3)%nat; reflexivity.
Qed.

Lemma parse_lines_header_anywhere : forall (before : list str) (line : str)
  (after : list str) (reviews : list (review_data datetime)),
  startswith_any (lower (strip line)) header_prefixes = true ->
  parse_lines now (before ++ line :: after) reviews
  = parse_lines now (before ++ after) reviews.
Proof.
  induction before as [| l before IH]; intros line after reviews H;
    cbn [app]; [apply parse_lines_header, H |].
  cbn [parse_lines]. cbn zeta.
  destruct (is_empty (strip l)); [apply IH, H |].
  destruct (length (strip l) <? 3)%nat; [apply IH, H |].
  destruct (startswith_any (lower (strip l)) header_prefixes); [apply IH, H |].
  destruct (100 <=? length reviews)%nat; [reflexivity |].
  apply IH, H.
Qed.

(** X13: a line whose lowercase form starts with "review", "text",
    "comment" or "feedback" is taken for a header and dropped, wherever
    it stands among the lines: the loop goes on with the reviews it had,
    and the reviews of the whole text are those of the lines without the
    header line.  A pasted text of such lines only gives no review at
    all. *)
Theorem parse_text_reviews_drops_headers :
  (forall (line : str) (rest : list str)
          (reviews : list (review_data datetime)),
     startswith_any (lower (strip line)) header_prefixes = true ->
     parse_lines now (line :: rest) reviews = parse_lines now rest reviews)
  /\ (forall (t : str) (before : list str) (line : str) (after : list str),
        split_on [10%N] (strip t) = before ++ line :: after ->
        startswith_any (lower (strip line)) header_prefixes = true ->
        parse_text_reviews now (Some t) = parse_lines now (before ++ after) [])
  /\ (forall t : str,
        Forall (fun line =>
                  startswith_any (lower (strip line)) header_prefixes = true)
          (split_on [10%N] (strip t)) ->
        parse_text_reviews now (Some t) = []).
Proof.
  split; [exact parse_lines_header |]. split.
  - intros t before line after Hs H. unfold parse_text_reviews.
    destruct (is_empty t || is_empty (strip t)) eqn:E.
    + assert (E' : strip t = []).
      { apply orb_true_iff in E. destruct E as [E | E].
        - destruct t; [reflexivity | discriminate].
        - destruct (strip t); [reflexivity | discriminate]. }
      rewrite E' in Hs. cbn in Hs.
      destruct before as [| b before]; cbn [app] in Hs.
      * injection Hs as <- <-. reflexivity.
      * injection Hs as _ Hs. destruct before; discriminate.
    + rewrite Hs. apply parse_lines_header_anywhere, H.
  - intros t H. unfold parse_text_reviews.
    destruct (is_empty t || is_empty (strip t)); [reflexivity |].
    apply parse_lines_all_headers, H.
Qed.

(** ** [parse_image_reviews] *)

Lemma ocr_review_is_ok (text : str) (reviews : list (review_data datetime)) :
  text <> [] -> ocr_review_ok (ocr_review now text reviews).
Proof. intros H. repeat split. exact H. Qed.

Lemma flush_review_ok (current_review : str)
  (reviews : list (review_data datetime)) :
  Forall ocr_review_ok reviews ->
  Forall ocr_review_ok (flush_review now current_review reviews).
Proof.
  intros H. unfold flush_review.
  destruct (strip current_review) as [| c s] eqn:E; cbn [is_empty];
    [exact H |].
  apply Forall_app. split; [exact H |]. constructor; [| constructor].
  apply ocr_review_is_ok. discriminate.
Qed.

Lemma group_sentences_ok : forall (sentences : list str)
  (current_review : str) (reviews : list (review_data datetime)),
  Forall ocr_review_ok reviews ->
  Forall ocr_review_ok
    (snd (group_sentences now sentences current_review reviews)).
Proof.
  induction sentences as [| sentence rest IH]; intros cur reviews H;
    cbn [group_sentences]; [exact H |].
  destruct (500 <? length (cur ++ sentence))%nat;
    apply IH; [apply flush_review_ok |]; exact H.
Qed.

Lemma parse_paragraphs_ok : forall (paragraphs : list str)
  (reviews : list (review_data datetime)),
  Forall ocr_review_ok reviews ->
  Forall ocr_review_ok (parse_paragraphs now paragraphs reviews).
Proof.
  induction paragraphs as [| para rest IH]; intros reviews H;
    cbn [parse_paragraphs]; [exact H |].
  cbn zeta.
  destruct (length (strip para) <? 10)%nat eqn:E10; [apply IH, H |].
  destruct (1000 <? length (strip para))%nat.
  - pose proof (group_sentences_ok (split_on (u ". ") (strip para)) []
                  reviews H) as G.
    destruct (group_sentences now (split_on (u ". ") (strip para)) [] reviews)
      as [cur rs]. cbn [snd] in G.
    apply IH, flush_review_ok, G.
  - apply IH, Forall_app. split; [exact H |]. constructor; [| constructor].
    apply ocr_review_is_ok. apply Nat.ltb_ge in E10.
    destruct (strip para); [cbn in E10; lia | discriminate].
Qed.

Lemma Forall_firstn {A : Type} (P : A -> Prop) (n : nat) (l : list A) :
  Forall P l -> Forall P (firstn n l).
Proof.
  rewrite !Forall_forall. intros H x Hx. eapply H, firstn_In, Hx.
Qed.

(** X14: from a text of at least five characters between its outer
    whitespace [parse_image_reviews] returns at least one and at most
    50 reviews, each with a text that is not empty, the platform
    "image_ocr", no rating and no reviewer name; from a shorter text it
    raises. *)
Theorem parse_image_reviews_bounds :
  (forall (extracted_text : str) (reviews : list (review_data datetime)),
     parse_image_reviews now extracted_text = Some reviews ->
     reviews <> []
     /\ (length reviews <= 50)%nat
     /\ Forall (fun r =>
                  review_text r <> []
                  /\ rating r = None
                  /\ platform r = u "image_ocr"
                  /\ reviewer_name r = None) reviews)
  /\ (forall extracted_text : str,
        parse_image_reviews now extracted_text = None
        <-> (length (strip extracted_text) < 5)%nat).
Proof.
  split.
  - intros e reviews. unfold parse_image_reviews.
    destruct (is_empty e || (length (strip e) <? 5)%nat) eqn:E;
      [discriminate |].
    apply orb_false_iff in E. destruct E as [_ E]. apply Nat.ltb_ge in E.
    cbn zeta.
    pose proof (parse_paragraphs_ok (split_on [10%N; 10%N] e) []
                  (Forall_nil _)) as Hp.
    set (rs := parse_paragraphs now (split_on [10%N; 10%N] e) []) in *.
    assert (H1 : exists rs1,
               (if (length rs =? 0)%nat
                then rs ++ [ocr_review now (strip e) rs] else rs) = rs1
               /\ rs1 <> [] /\ Forall ocr_review_ok rs1).
    { destruct rs as [| r rs'] eqn:Ers; cbn [length Nat.eqb app].
      - eexists. split; [reflexivity |]. split; [discriminate |].
        constructor; [| constructor]. apply ocr_review_is_ok.
        destruct (strip e); [cbn in E; lia | discriminate].
      - eexists. split; [reflexivity |]. split; [discriminate | exact Hp]. }
    destruct H1 as [rs1 [-> [Hne Hok]]].
    intros Heq.
    assert (Hr : reviews
                 = if (50 <? length rs1)%nat then firstn 50 rs1 else rs1)
      by congruence.
    rewrite Hr. clear Heq Hr.
    destruct (50 <? length rs1)%nat eqn:E50.
    + apply Nat.ltb_lt in E50. split; [| split].
      * destruct rs1; [contradiction | discriminate].
      * apply firstn_le_length.
      * apply Forall_firstn, Hok.
    + apply Nat.ltb_ge in E50. split; [| split]; assumption.
  - intros e. unfold parse_image_reviews. split.
    + destruct e as [| c s]; [cbn; lia |]. cbn [is_empty orb].
      destruct (length (strip (c :: s)) <? 5)%nat eqn:E; [| discriminate].
      intros _. apply Nat.ltb_lt, E.
    + intros H. apply Nat.ltb_lt in H. rewrite H, orb_true_r. reflexivity.
Qed.

End UtilsProperties.

(* ================================================================= *)
(** * Tokens *)

Section TokenProperties.

Context {ucd : UnicodeData}.

(** Every token of [split] is a non-empty run of characters of the
    text that are no whitespace. *)
Lemma split_from_tokens (P : codepoint -> Prop) : forall s cur : str,
  Forall P s ->
  Forall (fun c => P c /\ isspace c = false) cur ->
  Forall (fun w => w <> []
                   /\ Forall (fun c => P c /\ isspace c = false) w)
    (split_from cur s).
Proof.
  induction s as [| c s IH]; intros cur Hs Hcur; cbn [split_from].
  - destruct cur as [| x cur]; [constructor |].
    constructor; [| constructor]. split.
    + cbn [rev]. intros H. apply app_eq_nil in H. destruct H; discriminate.
    + apply Forall_rev, Hcur.
  - inversion Hs; subst. destruct (isspace c) eqn:E.
    + destruct cur as [| x cur]; [apply IH; [assumption | constructor] |].
      constructor; [| apply IH; [assumption | constructor]]. split.
      * cbn [rev]. intros H. apply app_eq_nil in H. destruct H; discriminate.
      * apply Forall_rev, Hcur.
    + apply IH; [assumption |]. constructor; auto.
Qed.

Lemma split_tokens (P : codepoint -> Prop) (s : str) :
  Forall P s ->
  Forall (fun w => w <> []
                   /\ Forall (fun c => P c /\ isspace c = false) w)
    (split s).
Proof. intros H. apply split_from_tokens; [exact H | constructor]. Qed.

Lemma Forall_True {A : Type} (l : list A) : Forall (fun _ => True) l.
Proof. induction l; constructor; auto. Qed.

(** X15: a token never holds a space, so the entries of the word lists
    that are written with a space ("rekommenderar inte", "not
    recommend", ...) match no token: a word that the scan counts has no
    space in it. *)
Theorem multiword_entries_never_match :
  (forall (s w e : str),
     In w (split s) -> has_char 32%N e = true -> w <> e)
  /\ (forall (text : str) (w : str),
        In w (split (lower (preprocess_text text))) ->
        is_sentiment_word w = true ->
        has_char 32%N w = false)
  /\ filter (has_char 32%N) (positive_words ++ negative_words)
     = map u ["rekommenderar starkt"; "fantastisk service";
              "överträffade förväntningar"; "exceeded expectations";
              "inte värt"; "rekommenderar inte"; "not recommend"]%string.
Proof.
  assert (H : forall s w, In w (split s) -> has_char 32%N w = false).
  { intros s w Hw.
    pose proof (split_tokens (fun _ => True) s (Forall_True s)) as Ht.
    rewrite Forall_forall in Ht. destruct (Ht w Hw) as [_ Hc].
    unfold has_char.
    destruct (existsb (fun x => (x =? 32)%N) w) eqn:E; [| reflexivity].
    apply existsb_exists in E. destruct E as [x [Hx Ex]].
    apply N.eqb_eq in Ex. subst x.
    rewrite Forall_forall in Hc. destruct (Hc _ Hx) as [_ Hsp].
    discriminate. }
  split; [| split; [| vm_compute; reflexivity]].
  - intros s w e Hw He Heq. subst e. rewrite (H s w Hw) in He. discriminate.
  - intros text w Hw _. apply (H _ _ Hw).
Qed.

Lemma nonword_sub_Forall : forall (s : str) (k : nat),
  Forall (fun c => isword c = true \/ isspace c = true)
    (re_sub_from match_nonword (u " ") k s).
Proof.
  induction s as [| c s IH]; intros k; cbn [re_sub_from]; [constructor |].
  destruct k; [| apply IH].
  unfold match_nonword.
  destruct (isword c) eqn:Ew; cbn [negb andb].
  - constructor; [left; exact Ew | apply IH].
  - destruct (isspace c) eqn:Es; cbn [negb].
    + constructor; [right; exact Es | apply IH].
    + change (u " ") with [32%N]. cbn [app].
      constructor; [right; reflexivity | apply IH].
Qed.

(** X16: every keyword that [extract_keywords] returns is made of word
    characters only (letters, digits and the underscore): punctuation
    and whitespace never get into a keyword. *)
Theorem extract_keywords_word_characters :
  forall (text : option str) (max_keywords : Z),
    Forall (fun w => Forall (fun c => isword c = true) w)
      (extract_keywords text max_keywords).
Proof.
  intros [text |] k; [| constructor].
  destruct (extract_keywords_spec text k) as [_ [Hf _]].
  eapply Forall_impl; [| exact Hf]. cbn beta. intros w [Hw _].
  unfold keyword_tokens, re_sub in Hw.
  pose proof (split_tokens _ _ (nonword_sub_Forall (lower text) 0)) as Ht.
  rewrite Forall_forall in Ht. destruct (Ht w Hw) as [_ Hc].
  eapply Forall_impl; [| exact Hc]. cbn beta.
  intros c [[H | H] Hs]; [exact H | congruence].
Qed.

End TokenProperties.

(* ================================================================= *)
(** * The word lists *)

Lemma Forall_mem (P : str -> Prop) (l : list str) (w : str) :
  Forall P l -> mem w l = true -> P w.
Proof.
  intros H Hw. apply mem_In in Hw. rewrite Forall_forall in H. apply H, Hw.
Qed.

(** X17: the word lists of [_initialize_model] give a token at most
    one role: no positive word is a negative word, no positive or
    negative word is a negation word or an intensifier, no negation
    word is an intensifier; and every intensifier's factor is above
    1.0. *)
Theorem lexicon_roles_disjoint :
  forall w : str,
    (mem w positive_words = true ->
     mem w negative_words = false
     /\ mem w negation_words = false
     /\ dict_get intensifiers w = None)
    /\ (mem w negative_words = true ->
        mem w negation_words = false /\ dict_get intensifiers w = None)
    /\ (mem w negation_words = true -> dict_get intensifiers w = None)
    /\ (forall k : float,
          dict_get intensifiers w = Some k -> fltb 1.0%py k = true).
Proof.
  intros w. split; [| split; [| split]].
  - apply (Forall_mem
             (fun x => mem x negative_words = false
                       /\ mem x negation_words = false
                       /\ dict_get intensifiers x = None)).
    vm_compute. repeat constructor.
  - apply (Forall_mem
             (fun x => mem x negation_words = false
                       /\ dict_get intensifiers x = None)).
    vm_compute. repeat constructor.
  - apply negation_not_intensifier.
  - intros k Hk. apply ScanFacts.dict_get_In in Hk.
    assert (A : Forall (fun x => fltb 1.0%py x = true) (map snd intensifiers))
      by (vm_compute; repeat constructor).
    rewrite Forall_forall in A. apply A, Hk.
Qed.

(* ================================================================= *)
(** * Instances of the further properties *)

Lemma analyze_body_never_raises_witness :
  exists r,
    analyze_body (ucd := latin1) (u "helt ok leverans") = Some r
    /\ analyze_sentiment (ucd := latin1) (Some (u "helt ok leverans")) = r.
Proof.
  destruct (@analyze_body_never_raises latin1 (u "helt ok leverans"))
    as [r [H1 H2]].
  exists r. split; [exact H1 |]. apply H2.
  intros H. vm_compute in H. discriminate H.
Defined.

Lemma negative_only_scores_zero_witness :
  score (analyze_sentiment (ucd := latin1)
           (Some (u "inte bra och aldrig nöjd"))) = 0.0%py
  /\ sentiment (analyze_sentiment (ucd := latin1)
                  (Some (u "inte bra och aldrig nöjd"))) = negative.
Proof.
  apply (@negative_only_scores_zero latin1 (u "inte bra och aldrig nöjd")).
  - vm_compute. lia.
  - exists (u "bra"). split; [vm_compute; auto | vm_compute; reflexivity].
  - intros i w Hi Hw.
    do 5 (destruct i as [| i];
          [vm_compute in Hi; injection Hi as <-;
           first [vm_compute; reflexivity | vm_compute in Hw; discriminate Hw]
          |]).
    vm_compute in Hi. destruct i; discriminate Hi.
Defined.

Lemma analyze_ignores_padding_witness :
  analyze_sentiment (ucd := latin1)
    (Some ([32%N; 9%N] ++ u "mycket bra" ++ [10%N]))
  = analyze_sentiment (ucd := latin1) (Some (u "mycket bra")).
Proof.
  apply (@analyze_ignores_padding latin1 [32%N; 9%N] [10%N] (u "mycket bra")).
  - reflexivity.
  - reflexivity.
  - intros H. vm_compute in H. discriminate H.
Defined.

Lemma whitespace_only_too_short_witness :
  analyze_sentiment (ucd := latin1) (Some [32%N; 9%N; 10%N])
  = mkResult neutral 0.5%py 0.1%py [] None.
Proof.
  apply (@whitespace_only_too_short latin1 [32%N; 9%N; 10%N]).
  - discriminate.
  - reflexivity.
Defined.

Lemma preprocess_text_only_spaces_witness :
  Forall (fun c => isspace c = true -> c = 32%N)
    (preprocess_text (u "bra" ++ [9%N; 10%N] ++ u "service")).
Proof.
  apply (preprocess_text_only_spaces (u "bra" ++ [9%N; 10%N] ++ u "service")).
Defined.

Lemma extract_keywords_complete_witness :
  In (u "leverans")
    (extract_keywords (ucd := latin1)
       (Some (u "Snabb leverans, snabb service")) 10).
Proof.
  apply (@extract_keywords_complete latin1
           (u "Snabb leverans, snabb service") 10 (u "leverans")).
  - lia.
  - vm_compute. reflexivity.
  - vm_compute. auto.
  - vm_compute. reflexivity.
Defined.

Lemma extract_keywords_prefix_witness :
  extract_keywords (ucd := latin1)
    (Some (u "Snabb leverans, snabb service")) 1
  = firstn 1
      (extract_keywords (ucd := latin1)
         (Some (u "Snabb leverans, snabb service")) 3).
Proof.
  apply (@extract_keywords_prefix latin1
           (Some (u "Snabb leverans, snabb service")) 1 3).
  lia.
Defined.

Lemma image_file_is_allowed_witness :
  allowed_file (ucd := latin1) (u "foto.JPG") = true.
Proof.
  apply (@image_file_is_allowed latin1 (u "foto.JPG")).
  vm_compute. reflexivity.
Defined.

Lemma file_type_from_last_extension_witness :
  allowed_file (ucd := latin1) (u "rapport.final" ++ chr "." :: u "CSV")
  = mem (lower (UnicodeData := latin1) (u "CSV")) ALLOWED_EXTENSIONS
  /\ allowed_file (ucd := latin1) (u "README") = false.
Proof.
  destruct (@file_type_from_last_extension latin1) as [H1 H2].
  split.
  - apply (H1 (u "rapport.final") (u "CSV")). vm_compute. reflexivity.
  - apply (H2 (u "README")). vm_compute. reflexivity.
Defined.

Lemma parse_text_reviews_bounds_witness :
  parse_text_reviews (ucd := latin1) (fun k : nat => k)
    (Some [32%N; 10%N; 9%N]) = [].
Proof.
  apply (@parse_text_reviews_bounds latin1 nat (fun k => k)).
  reflexivity.
Defined.

Lemma parse_text_reviews_drops_headers_witness :
  parse_text_reviews (ucd := latin1) (fun k : nat => k)
    (Some (u "Bra butik" ++ [10%N] ++ u "Review: toppen" ++ [10%N]
           ++ u "Snabb leverans"))
  = parse_lines (ucd := latin1) (fun k : nat => k)
      ([u "Bra butik"] ++ [u "Snabb leverans"]) [].
Proof.
  destruct (@parse_text_reviews_drops_headers latin1 nat (fun k => k))
    as [_ [H _]].
  apply (H _ [u "Bra butik"] (u "Review: toppen") [u "Snabb leverans"]);
    vm_compute; reflexivity.
Defined.

Lemma parse_image_reviews_bounds_witness :
  exists reviews,
    parse_image_reviews (fun k : nat => k)
      (u "Mycket bra service" ++ [10%N; 10%N] ++ u "kort"
       ++ [10%N; 10%N] ++ u "Leveransen var sen.") = Some reviews
    /\ reviews <> [] /\ (length reviews <= 50)%nat.
Proof.
  eexists. split; [vm_compute; reflexivity |].
  destruct (proj1 (parse_image_reviews_bounds nat (fun k => k))
              (u "Mycket bra service" ++ [10%N; 10%N] ++ u "kort"
               ++ [10%N; 10%N] ++ u "Leveransen var sen.")
              _ eq_refl) as [H1 [H2 _]].
  split; [exact H1 | exact H2].
Defined.

Lemma multiword_entries_never_match_witness :
  u "rekommenderar" <> u "rekommenderar inte".
Proof.
  apply (proj1 (@multiword_entries_never_match latin1)
           (u "rekommenderar inte") (u "rekommenderar")
           (u "rekommenderar inte")).
  - vm_compute. auto.
  - vm_compute. reflexivity.
Defined.

Lemma lexicon_roles_disjoint_witness :
  mem (u "bra") negative_words = false
  /\ mem (u "bra") negation_words = false
  /\ dict_get intensifiers (u "bra") = None.
Proof.
  apply (proj1 (lexicon_roles_disjoint (u "bra"))).
  vm_compute. reflexivity.
Defined.

(* ================================================================= *)
(** * URLs *)

Section UrlFacts.

Lemma strip_prefix_Some (p s r : str) :
  strip_prefix p s = Some r -> s = p ++ r.
Proof.
  revert s. induction p as [| x p IH]; intros s; cbn [strip_prefix app].
  - intros [= ->]. reflexivity.
  - destruct s as [| y s]; [discriminate |].
    destruct (x =? y)%N eqn:E; [| discriminate].
    apply N.eqb_eq in E. subst y. intros H. rewrite (IH _ H). reflexivity.
Qed.

Lemma strip_prefix_app (p r : str) : strip_prefix p (p ++ r) = Some r.
Proof.
  induction p as [| x p IH]; cbn [strip_prefix app]; [reflexivity |].
  rewrite N.eqb_refl. exact IH.
Qed.

Lemma url_char_range (c : codepoint) :
  url_char c = true -> (33 <= c <= 122)%N.
Proof.
  unfold url_char, in_range.
  repeat rewrite ?orb_true_iff, ?andb_true_iff, ?N.leb_le, ?N.eqb_eq.
  vm_compute chr. lia.
Qed.

Lemma isspace_not_url (c : codepoint) :
  isspace c = true -> url_char c = false.
Proof.
  intros H. destruct (url_char c) eqn:E; [| reflexivity].
  apply url_char_range in E. unfold isspace in H.
  repeat rewrite ?orb_true_iff, ?andb_true_iff, ?N.leb_le, ?N.eqb_eq in H.
  lia.
Qed.

Lemma take_while_nonempty (p : codepoint -> bool) (t : str) :
  take_while p t <> [] -> exists c t0, t = c :: t0 /\ p c = true.
Proof.
  destruct t as [| c t0]; cbn [take_while]; [congruence |].
  destruct (p c) eqn:E; [| congruence]. intros _. exists c, t0. auto.
Qed.

Lemma url_tail_Some (n m : nat) (r : str) :
  url_tail n r = Some m ->
  exists t, r = [58; 47; 47]%N ++ t
            /\ take_while url_char t <> []
            /\ m = (n + 3 + length (take_while url_char t))%nat.
Proof.
  unfold url_tail. change (u "://") with [58; 47; 47]%N.
  destruct (strip_prefix [58; 47; 47]%N r) as [t |] eqn:E; [| discriminate].
  apply strip_prefix_Some in E.
  destruct (take_while url_char t) as [| c k] eqn:Et; [discriminate |].
  intros [= <-]. exists t. rewrite Et. repeat split; [exact E | discriminate].
Qed.

Lemma url_tail_app (n : nat) (t : str) :
  take_while url_char t <> [] -> url_tail n ([58; 47; 47]%N ++ t) <> None.
Proof.
  intros H. unfold url_tail. change (u "://") with [58; 47; 47]%N.
  rewrite strip_prefix_app.
  destruct (take_while url_char t); [congruence | discriminate].
Qed.

(** A match of the URL pattern: [http://] or [https://] and a run of
    URL characters that is not empty. *)
Lemma match_url_Some (s : str) (n : nat) :
  match_url s = Some n ->
  exists P t,
    s = P ++ t
    /\ (P = [104; 116; 116; 112; 58; 47; 47]%N
        \/ P = [104; 116; 116; 112; 115; 58; 47; 47]%N)
    /\ take_while url_char t <> []
    /\ n = (length P + length (take_while url_char t))%nat.
Proof.
  unfold match_url. change (u "http") with [104; 116; 116; 112]%N.
  destruct (strip_prefix [104; 116; 116; 112]%N s) as [r |] eqn:E;
    [| discriminate].
  apply strip_prefix_Some in E. subst s.
  destruct r as [| c r'].
  - intros H. apply url_tail_Some in H. destruct H as [t [H _]]. discriminate.
  - destruct (c =? chr "s")%N eqn:Es.
    + apply N.eqb_eq in Es. subst c.
      destruct (url_tail 5 r') as [k |] eqn:E2.
      * intros [= <-]. apply url_tail_Some in E2.
        destruct E2 as [t [-> [Ht ->]]].
        exists [104; 116; 116; 112; 115; 58; 47; 47]%N, t.
        repeat split; auto.
      * intros H. apply url_tail_Some in H. destruct H as [t [H _]].
        vm_compute in H. discriminate.
    + intros H. apply url_tail_Some in H. destruct H as [t [H [Ht ->]]].
      rewrite H.
      exists [104; 116; 116; 112; 58; 47; 47]%N, t. repeat split; auto.
Qed.

Lemma match_url_pattern (P t : str) :
  P = [104; 116; 116; 112; 58; 47; 47]%N
  \/ P = [104; 116; 116; 112; 115; 58; 47; 47]%N ->
  take_while url_char t <> [] ->
  match_url (P ++ t) <> None.
Proof.
  intros [-> | ->] Ht; unfold match_url;
    change (u "http") with [104; 116; 116; 112]%N.
  - change ([104; 116; 116; 112; 58; 47; 47]%N ++ t)
      with ([104; 116; 116; 112]%N ++ ([58; 47; 47]%N ++ t)).
    rewrite strip_prefix_app. cbn [app].
    change (58 =? chr "s")%N with false. cbv iota.
    apply (url_tail_app 4 t Ht).
  - change ([104; 116; 116; 112; 115; 58; 47; 47]%N ++ t)
      with ([104; 116; 116; 112]%N ++ (115%N :: [58; 47; 47]%N ++ t)).
    rewrite strip_prefix_app.
    change (115 =? chr "s")%N with true. cbv iota.
    pose proof (url_tail_app 5 t Ht) as H.
    destruct (url_tail 5 ([58; 47; 47]%N ++ t)); [discriminate | congruence].
Qed.

Lemma take_while_app_all (p : codepoint -> bool) (a r : str) :
  forallb p a = true -> take_while p (a ++ r) = a ++ take_while p r.
Proof.
  induction a as [| x a IH]; cbn [forallb app take_while]; [reflexivity |].
  intros H. apply andb_true_iff in H. destruct H as [-> H].
  rewrite (IH H). reflexivity.
Qed.

Lemma take_while_prefix (p : codepoint -> bool) (x a z : str) :
  take_while p x = a ++ z -> exists r, x = a ++ r.
Proof.
  intros H. exists (z ++ drop_while p x).
  rewrite app_assoc, <- H. symmetry. apply take_while_drop_while.
Qed.

(** Whether the URL pattern matches at the start of a text depends on
    its leading URL characters only, and more of them keep a match. *)
Lemma match_url_mono (x y : str) :
  (exists z, take_while url_char x = take_while url_char y ++ z) ->
  match_url x = None -> match_url y = None.
Proof.
  intros [z Hz] Hx. destruct (match_url y) as [n |] eqn:Ey; [| reflexivity].
  exfalso. apply match_url_Some in Ey.
  destruct Ey as [P [t [-> [HP [Ht _]]]]].
  apply take_while_nonempty in Ht. destruct Ht as [c [t0 [-> Hc]]].
  assert (Hall : forallb url_char (P ++ [c]) = true).
  { rewrite forallb_app. cbn [forallb]. rewrite Hc.
    destruct HP as [-> | ->]; reflexivity. }
  replace (P ++ c :: t0) with ((P ++ [c]) ++ t0) in Hz
    by (rewrite <- app_assoc; reflexivity).
  rewrite (take_while_app_all _ _ _ Hall), <- app_assoc in Hz.
  apply take_while_prefix in Hz. destruct Hz as [r ->].
  rewrite <- app_assoc in Hx. cbn [app] in Hx.
  apply (match_url_pattern P (c :: r) HP); [| exact Hx].
  cbn [take_while]. rewrite Hc. discriminate.
Qed.

Lemma url_sub_match (M rest : str) :
  M <> [] -> match_url (M ++ rest) = Some (length M) ->
  re_sub_from match_url [] 0 (M ++ rest) = re_sub_from match_url [] 0 rest.
Proof.
  intros HM H. destruct M as [| c M']; [congruence |].
  cbn [app re_sub_from length] in *. rewrite H. cbn [app].
  apply re_sub_from_skip.
Qed.

(** The text after a match starts with no URL character, and so does
    what the substitution makes of it. *)
Lemma url_sub_boundary (rest : str) :
  (forall d r, rest = d :: r -> url_char d = false) ->
  take_while url_char (re_sub_from match_url [] 0 rest) = [].
Proof.
  intros H. destruct rest as [| d r]; [reflexivity |].
  pose proof (H d r eq_refl) as Hd. cbn [re_sub_from].
  destruct (match_url (d :: r)) as [n |] eqn:E.
  - apply match_url_Some in E. destruct E as [P [t [E [HP _]]]].
    destruct HP as [-> | ->]; injection E as -> _; discriminate.
  - cbn [take_while]. rewrite Hd. reflexivity.
Qed.

Lemma url_sub_spec : forall (n : nat) (s : str),
  (length s <= n)%nat ->
  (exists z, take_while url_char s
             = take_while url_char (re_sub_from match_url [] 0 s) ++ z)
  /\ (forall a t, re_sub_from match_url [] 0 s = a ++ t ->
                  match_url t = None).
Proof.
  induction n as [| n IH]; intros s Hn.
  - destruct s; [| cbn in Hn; lia]. split; [exists []; reflexivity |].
    intros a t H. cbn in H. symmetry in H. apply app_eq_nil in H.
    destruct H as [_ ->]. reflexivity.
  - destruct s as [| c s'].
    { split; [exists []; reflexivity |].
      intros a t H. cbn in H. symmetry in H. apply app_eq_nil in H.
      destruct H as [_ ->]. reflexivity. }
    destruct (match_url (c :: s')) as [m |] eqn:Em.
    + pose proof Em as Em'. apply match_url_Some in Em'.
      destruct Em' as [P [t [Es [HP [Ht Hm]]]]].
      pose proof (take_while_drop_while url_char t) as Htd.
      set (M := P ++ take_while url_char t).
      set (rest := drop_while url_char t).
      assert (HsM : c :: s' = M ++ rest).
      { subst M rest. rewrite <- app_assoc, Htd. exact Es. }
      assert (HlenM : m = length M)
        by (subst M; rewrite length_app; exact Hm).
      assert (HMne : M <> []).
      { subst M. destruct HP as [-> | ->]; discriminate. }
      assert (Hrest : (length rest <= n)%nat).
      { apply (f_equal (@length _)) in HsM. rewrite length_app in HsM.
        cbn [length] in HsM, Hn. destruct M; [congruence |].
        cbn [length] in HsM. lia. }
      assert (Hb : forall d r, rest = d :: r -> url_char d = false).
      { intros d r Hr. subst rest. eapply drop_while_hd, Hr. }
      rewrite HsM. rewrite HsM, HlenM in Em.
      rewrite (url_sub_match M rest HMne Em).
      split.
      * rewrite (url_sub_boundary rest Hb). eexists. reflexivity.
      * apply (IH rest Hrest).
    + assert (Hi : exists z,
                 take_while url_char (c :: s')
                 = take_while url_char
                     (re_sub_from match_url [] 0 (c :: s')) ++ z).
      { cbn [re_sub_from]. rewrite Em. cbn [take_while].
        destruct (url_char c); [| exists []; reflexivity].
        destruct (IH s') as [[z Hz] _]; [cbn in Hn; lia |].
        exists z. rewrite Hz. reflexivity. }
      split; [exact Hi |].
      intros a t H. destruct a as [| x a].
      * cbn [app] in H. subst t. apply (match_url_mono (c :: s')); assumption.
      * cbn [re_sub_from] in H. rewrite Em in H. cbn [app] in H.
        injection H as _ H.
        destruct (IH s') as [_ H2]; [cbn in Hn; lia |]. apply (H2 a t H).
Qed.

Lemma match_url_nonurl_head (c : codepoint) (r : str) :
  url_char c = false -> match_url (c :: r) = None.
Proof.
  intros Hc. destruct (match_url (c :: r)) as [n |] eqn:E; [| reflexivity].
  apply match_url_Some in E. destruct E as [P [t [E [HP _]]]].
  destruct HP as [-> | ->]; injection E as -> _; discriminate.
Qed.

Lemma take_while_url_boundary (l r : str) :
  isspace (hd 32%N r) = true ->
  take_while url_char (l ++ r) = take_while url_char l.
Proof.
  intros Hr. induction l as [| x l IH]; cbn [app take_while].
  - destruct r as [| c r]; [reflexivity |]. cbn [hd] in Hr.
    cbn [take_while]. rewrite (isspace_not_url c Hr). reflexivity.
  - destruct (url_char x); [rewrite IH |]; reflexivity.
Qed.

(** Deleting the email addresses of a text in which the URL pattern
    matches nowhere leaves a text in which it matches nowhere. *)
Lemma email_sub_url_free : forall (n : nat) (x : str),
  (length x <= n)%nat ->
  (forall a t, x = a ++ t -> match_url t = None) ->
  forall a t, re_sub_from match_email [] 0 x = a ++ t -> match_url t = None.
Proof.
  induction n as [| n IH]; intros x Hn Hx a t H.
  - destruct x; [| cbn in Hn; lia]. cbn in H. symmetry in H.
    apply app_eq_nil in H. destruct H as [_ ->]. reflexivity.
  - destruct x as [| c x'].
    { cbn in H. symmetry in H. apply app_eq_nil in H.
      destruct H as [_ ->]. reflexivity. }
    destruct (isspace c) eqn:Ec.
    + rewrite (email_sub_space c x' Ec) in H. destruct a as [| y a].
      * cbn [app] in H. subst t.
        apply match_url_nonurl_head, isspace_not_url, Ec.
      * cbn [app] in H. injection H as _ H.
        apply (IH x') with (a := a); [cbn in Hn; lia | | exact H].
        intros a0 t0 E. apply (Hx (c :: a0) t0). rewrite E. reflexivity.
    + pose proof (take_while_drop_while (fun c => negb (isspace c)) (c :: x'))
        as Hs.
      pose proof (take_while_forallb (fun c => negb (isspace c)) (c :: x'))
        as Ht.
      pose proof (drop_while_nonspace_hd (c :: x')) as Hr.
      set (run := take_while (fun c => negb (isspace c)) (c :: x')) in *.
      set (rest := drop_while (fun c => negb (isspace c)) (c :: x')) in *.
      assert (Hlen : (length rest <= n)%nat).
      { subst rest. cbn [drop_while]. rewrite Ec. cbn [negb].
        pose proof (drop_while_length (fun c => negb (isspace c)) x').
        cbn in Hn. lia. }
      assert (Hrest : forall a0 t0, rest = a0 ++ t0 -> match_url t0 = None).
      { intros a0 t0 E. apply (Hx (run ++ a0) t0).
        rewrite <- Hs, E, app_assoc. reflexivity. }
      rewrite <- Hs in H.
      destruct (match_email run) as [k |] eqn:Em.
      * rewrite (email_sub_deleted run rest k Ht Hr Em) in H.
        apply (IH rest Hlen Hrest a t H).
      * rewrite (email_sub_kept run rest Ht Hr Em) in H.
        symmetry in H. apply app_eq_app in H.
        destruct H as [l [[H1 H2] | [H1 H2]]].
        -- apply (IH rest Hlen Hrest l t H2).
        -- subst t.
           apply (match_url_mono (l ++ rest)).
           ++ exists []. rewrite app_nil_r.
              rewrite (take_while_url_boundary l rest Hr).
              rewrite (take_while_url_boundary l _ (email_sub_hd rest Hr)).
              reflexivity.
           ++ apply (Hx a (l ++ rest)).
              rewrite <- Hs, H1, <- app_assoc. reflexivity.
Qed.

(** X18: the URL pattern matches at no position of the text that
    [preprocess_text] returns: no URL is left in it. *)
Theorem preprocess_text_no_url :
  forall text a t : str,
    preprocess_text text = a ++ t -> match_url t = None.
Proof.
  intros [| c s] a t H.
  - cbn in H. symmetry in H. apply app_eq_nil in H.
    destruct H as [_ ->]. reflexivity.
  - unfold preprocess_text, re_sub in H.
    eapply email_sub_url_free; [reflexivity | | exact H].
    eapply url_sub_spec. reflexivity.
Qed.

End UrlFacts.

Lemma preprocess_text_no_url_witness :
  match_url (u "idag") = None.
Proof.
  apply (preprocess_text_no_url (u "se https://shop.se/kassa?id=7 idag")
           (u "se  ") (u "idag")).
  vm_compute. reflexivity.
Defined.
